(** * Corpus collection scripts: field extraction, record normalisation,
      bounded streaming, source resolution and the JSONL writer.

    Shallow embedding of [scripts/01_collect_raw.py] and [download_data.py].

    Python values are a closed inductive type; a Python [str] is the list
    of its code points; generators are step machines over an explicit
    cursor into the raw source; exceptions are an explicit result type;
    the file system is a finite map from paths to nodes. *)

From Stdlib Require Import Ascii String.
From stdpp Require Import base option list gmap.

Set Default Proof Using "Type".
Set Warnings "-register-all".

(** ** Python strings *)

(** A [str] is its sequence of Unicode code points. *)
Abbreviation char := N (only parsing).
Abbreviation str := (list N) (only parsing).

(** ASCII literals. *)
Definition lit (s : string) : str :=
  map N_of_ascii (list_ascii_of_string s).
Arguments lit s%_string.

(** [str.isspace] on one code point: the white-space table of CPython
    ([_PyUnicode_IsWhitespace]). *)
Definition py_isspace (c : char) : bool :=
  ((9 <=? c) && (c <=? 13) || (28 <=? c) && (c <=? 32)
   || (c =? 133) || (c =? 160) || (c =? 5760)
   || (8192 <=? c) && (c <=? 8202)
   || (c =? 8232) || (c =? 8233) || (c =? 8239) || (c =? 8287)
   || (c =? 12288))%N.

Section Strip.
Context {A : Type} (sp : A -> bool).

(** Drop the leading run of white space. *)
Fixpoint lstrip (s : list A) : list A :=
  match s with
  | [] => []
  | c :: s' => if sp c then lstrip s' else s
  end.

(** Drop the trailing run of white space. *)
Fixpoint rstrip (s : list A) : list A :=
  match s with
  | [] => []
  | c :: s' =>
      match rstrip s' with
      | [] => if sp c then [] else [c]
      | r => c :: r
      end
  end.

(** [s.strip()] *)
Definition strip (s : list A) : list A := rstrip (lstrip s).

(** A string that [strip] leaves alone. *)
Definition trimmed (s : list A) : Prop := lstrip s = s /\ rstrip s = s.

(** [sep.join(parts)] *)
Fixpoint join (sep : list A) (parts : list (list A)) : list A :=
  match parts with
  | [] => []
  | [x] => x
  | x :: rest => x ++ sep ++ join sep rest
  end.
End Strip.

(** [s.strip()] with no argument strips Python white space. *)
Definition str_strip (s : str) : str := strip py_isspace s.

(** [a == b] on strings. *)
Fixpoint str_eqb (a b : str) : bool :=
  match a, b with
  | [], [] => true
  | x :: a', y :: b' => (x =? y)%N && str_eqb a' b'
  | _, _ => false
  end.

(** Truth value of a [str]: non-empty. *)
Definition nonempty {A} (s : list A) : bool :=
  match s with [] => false | _ :: _ => true end.

(** ** Python values

    The values a decoded dataset record is made of: [None], [bool],
    [int], [str], [list], [tuple] and [dict] with [str] keys. A [dict]
    keeps its insertion order, which [json.dumps] follows. *)
Inductive pyval : Type :=
| PNone
| PBool (b : bool)
| PInt (z : Z)
| PStr (s : str)
| PList (l : list pyval)
| PTuple (l : list pyval)
| PDict (d : list (str * pyval)).

Abbreviation dict := (list (str * pyval)) (only parsing).

(** [k in d] and [d[k]] *)
Fixpoint dict_lookup (d : dict) (k : str) : option pyval :=
  match d with
  | [] => None
  | (k', v) :: d' => if str_eqb k' k then Some v else dict_lookup d' k
  end.

(** [d.get(k)] *)
Definition dict_get (d : dict) (k : str) : pyval :=
  default PNone (dict_lookup d k).

(** [d.get(k, dflt)] *)
Definition dict_get_or (d : dict) (k : str) (dflt : pyval) : pyval :=
  default dflt (dict_lookup d k).

(** [bool(v)] *)
Definition truthy (v : pyval) : bool :=
  match v with
  | PNone => false
  | PBool b => b
  | PInt z => negb (z =? 0)%Z
  | PStr s => nonempty s
  | PList l | PTuple l => nonempty l
  | PDict d => nonempty d
  end.

(** [a or b] *)
Definition py_or (a b : pyval) : pyval := if truthy a then a else b.

(** Truth value of an [Optional[str]]. *)
Definition opt_truthy (o : option str) : bool :=
  match o with Some s => nonempty s | None => false end.

(** [a or b] on [Optional[str]] *)
Definition opt_or (a b : option str) : option str :=
  if opt_truthy a then a else b.

(** An [Optional[str]] as a value. *)
Definition of_opt (o : option str) : pyval :=
  match o with Some s => PStr s | None => PNone end.

(** ** Exceptions *)
Inductive exn : Type :=
| AttributeError
| ValueError
| RuntimeError (msg : str)
| FileExistsError
| FileNotFoundError
| NotADirectoryError
| IsADirectoryError
| UnicodeEncodeError.

Inductive res (A : Type) : Type :=
| Ok (a : A)
| Raise (e : exn).
Arguments Ok {A} a.
Arguments Raise {A} e.

(** Sequencing: the first exception ends the computation. *)
#[export] Instance res_ret : MRet res := fun A a => Ok a.
#[export] Instance res_bind : MBind res := fun A B k r =>
  match r with Ok a => k a | Raise e => Raise e end.

(** [v.strip()]: only a [str] has the method. *)
Definition call_strip (v : pyval) : res str :=
  match v with
  | PStr s => Ok (str_strip s)
  | _ => Raise AttributeError
  end.

(** ** Generators as step machines

    One call of [next] on a generator either yields a value, runs one
    loop iteration that yields nothing, finishes, or raises. Every
    outcome carries the state the generator is left in. *)
Inductive gstep (A S : Type) : Type :=
| GYield (a : A) (s : S)
| GSkip (s : S)
| GStop (s : S)
| GRaise (e : exn) (s : S).
Arguments GYield {A S} a s.
Arguments GSkip {A S} s.
Arguments GStop {A S} s.
Arguments GRaise {A S} e s.

(** A raw source is read through a cursor: [ds i] is the record the
    [i]-th pull returns, [None] once the source is exhausted. A source
    that never answers [None] is unbounded. *)
Definition source : Type := nat -> option (list (str * pyval)).

Definition of_list (l : list (list (str * pyval))) : source := fun i => l !! i.

(** [for ex in ds: ... if ...: yield rec], with the loop body [f]
    answering the record to yield, nothing, or an exception. The state
    is the cursor: the number of records pulled so far. *)
Definition for_each (f : list (str * pyval) -> res (option pyval))
    (ds : source) (pos : nat) : gstep pyval nat :=
  match ds pos with
  | None => GStop pos
  | Some ex =>
      match f ex with
      | Raise e => GRaise e (S pos)
      | Ok None => GSkip (S pos)
      | Ok (Some r) => GYield r (S pos)
      end
  end.

(** One turn of a generator's loop [for x in it: yield ...] under a
    counter [n]: the counter is kept, and after a yield the generator is
    suspended at its [yield]. *)
Definition loop_turn {A S} (nx : S -> gstep A S) (s : S) (n : Z)
    : gstep A (S * Z * bool) :=
  match nx s with
  | GYield a s' => GYield a (s', n, true)
  | GSkip s' => GSkip (s', n, false)
  | GStop s' => GStop (s', n, false)
  | GRaise e s' => GRaise e (s', n, false)
  end.

(** The consumer's [for rec in records] loop: what was yielded, the
    state the generator ended in, and the exception that ended it, if
    any. [None] when [fuel] steps were not enough. *)
Fixpoint drain {A S} (nx : S -> gstep A S) (fuel : nat) (s : S)
    : option (list A * S * option exn) :=
  match fuel with
  | O => None
  | S k =>
      match nx s with
      | GYield a s' =>
          match drain nx k s' with
          | Some (out, s'', e) => Some (a :: out, s'', e)
          | None => None
          end
      | GSkip s' => drain nx k s'
      | GStop s' => Some ([], s', None)
      | GRaise e s' => Some ([], s', Some e)
      end
  end.


(** ** [json.dumps(rec, ensure_ascii=False)] *)

Fixpoint uint_codes (u : Decimal.uint) : str :=
  match u with
  | Decimal.Nil => []
  | Decimal.D0 u => 48%N :: uint_codes u
  | Decimal.D1 u => 49%N :: uint_codes u
  | Decimal.D2 u => 50%N :: uint_codes u
  | Decimal.D3 u => 51%N :: uint_codes u
  | Decimal.D4 u => 52%N :: uint_codes u
  | Decimal.D5 u => 53%N :: uint_codes u
  | Decimal.D6 u => 54%N :: uint_codes u
  | Decimal.D7 u => 55%N :: uint_codes u
  | Decimal.D8 u => 56%N :: uint_codes u
  | Decimal.D9 u => 57%N :: uint_codes u
  end.

(** Decimal text of an [int]. *)
Definition int_repr (z : Z) : str :=
  match Z.to_int z with
  | Decimal.Pos u => uint_codes u
  | Decimal.Neg u => 45%N :: uint_codes u
  end.

Definition hex_digit (n : N) : N :=
  (if n <? 10 then 48 + n else 87 + n)%N.

(** One character inside a JSON string: the quote, the backslash and the
    control characters below U+0020 are escaped, every other character
    is written as it is. *)
Definition escape_char (c : char) : str :=
  (if c =? 34 then [92; 34]
   else if c =? 92 then [92; 92]
   else if c =? 10 then [92; 110]
   else if c =? 13 then [92; 114]
   else if c =? 9 then [92; 116]
   else if c =? 8 then [92; 98]
   else if c =? 12 then [92; 102]
   else if c <? 32 then [92; 117; 48; 48; hex_digit (c / 16); hex_digit (c mod 16)]
   else [c])%N.

Definition encode_basestring (s : str) : str :=
  [34%N] ++ flat_map escape_char s ++ [34%N].

Fixpoint json_dumps (v : pyval) : str :=
  match v with
  | PNone => lit "null"
  | PBool true => lit "true"
  | PBool false => lit "false"
  | PInt z => int_repr z
  | PStr s => encode_basestring s
  | PList l | PTuple l =>
      lit "[" ++ join (lit ", ") (map json_dumps l) ++ lit "]"
  | PDict d =>
      lit "{"
        ++ join (lit ", ")
             (map (fun kv => match kv with
                             | (k, x) => encode_basestring k ++ lit ": " ++ json_dumps x
                             end) d)
        ++ lit "}"
  end.

(** The number of decimal digits of an [int]. *)
Definition int_digits (z : Z) : nat :=
  match Z.to_int z with
  | Decimal.Pos u | Decimal.Neg u => length (uint_codes u)
  end.

(** The limit on the digits of an [int] turned into text
    ([sys.int_info.default_max_str_digits] of CPython 3.11 and later):
    a longer one makes the conversion raise [ValueError]. *)
Definition int_max_str_digits : nat := 4300.

(** Every [int] in the value can be printed. *)
Fixpoint dumpable (v : pyval) : bool :=
  match v with
  | PInt z => int_digits z <=? int_max_str_digits
  | PList l | PTuple l => forallb dumpable l
  | PDict d => forallb (fun kv => match kv with (_, x) => dumpable x end) d
  | _ => true
  end.

(** [json.dumps(rec, ensure_ascii=False)] as a call: the text, or the
    [ValueError] of an [int] too long to print. *)
Definition dumps (v : pyval) : res str :=
  if dumpable v then Ok (json_dumps v) else Raise ValueError.

(** A surrogate code point, U+D800 to U+DFFF: it has no UTF-8
    encoding. *)
Definition is_surrogate (c : char) : bool := ((55296 <=? c) && (c <=? 57343))%N.

(** The text can be encoded in UTF-8: it holds no surrogate. *)
Definition utf8_encodable (s : str) : bool := forallb (fun c => negb (is_surrogate c)) s.

(** ** The file system

    A path is the list of its parts; the file system maps a path to a
    directory or to a regular file with its text. The empty path is the
    directory the paths start from, and always exists. *)
Inductive node : Type :=
| Dir
| File (content : str).

Abbreviation path := (list (list N)) (only parsing).
Abbreviation fsys := (gmap (list (list N)) node) (only parsing).

(** [path.parent] *)
Definition parent (p : path) : path := removelast p.

Definition is_dir (fs : fsys) (p : path) : bool :=
  match p with
  | [] => true
  | _ => match fs !! p with Some Dir => true | _ => false end
  end.

(** [path.relative_to(base)] succeeds when [base] is a prefix of [path]. *)
Fixpoint starts_with (base p : path) : bool :=
  match base, p with
  | [], _ => true
  | b :: base', c :: p' => str_eqb b c && starts_with base' p'
  | _ :: _, [] => false
  end.

(** File-system actions: the new file system, and a result or the
    exception raised. *)
Definition io (A : Type) : Type :=
  gmap (list (list N)) node -> gmap (list (list N)) node * res A.

#[export] Instance io_ret : MRet io := fun A a fs => (fs, Ok a).
#[export] Instance io_bind : MBind io := fun A B k m fs =>
  match m fs with
  | (fs', Ok a) => k a fs'
  | (fs', Raise e) => (fs', Raise e)
  end.

Definition io_raise {A} (e : exn) : io A := fun fs => (fs, Raise e).

(** [p.mkdir(parents=True, exist_ok=True)] for [p = base / rest], [base]
    being a directory already: every missing directory on the way is
    created, an existing directory is kept, a regular file in the way
    is an error. *)
Fixpoint mkdir_from (base rest : path) : io unit :=
  match rest with
  | [] => mret ()
  | c :: rest' =>
      let p := base ++ [c] in
      fun fs =>
        match fs !! p with
        | Some Dir => mkdir_from p rest' fs
        | Some (File _) =>
            (fs, Raise (if nonempty rest' then NotADirectoryError else FileExistsError))
        | None => mkdir_from p rest' (<[p := Dir]> fs)
        end
  end.

Definition mkdir_parents (p : path) : io unit := mkdir_from [] p.

(** [path.open("w")]: the file is created, or emptied if it exists. *)
Definition open_w (p : path) : io unit := fun fs =>
  if is_dir fs p then (fs, Raise IsADirectoryError)
  else if is_dir fs (parent p) then (<[p := File []]> fs, Ok ())
  else match fs !! parent p with
       | Some (File _) => (fs, Raise NotADirectoryError)
       | _ => (fs, Raise FileNotFoundError)
       end.

(** A result as an action that leaves the file system alone. *)
Definition io_of_res {A} (r : res A) : io A := fun fs => (fs, r).

(** [f.write(s)] on the file opened at [p] with [encoding="utf-8"]: the
    text is appended, or, when it cannot be encoded, nothing of it is
    written and [UnicodeEncodeError] is raised. *)
Definition f_write (p : path) (s : str) : io unit := fun fs =>
  if utf8_encodable s
  then (alter (fun n => match n with File c => File (c ++ s) | Dir => Dir end) p fs, Ok ())
  else (fs, Raise UnicodeEncodeError).

(** [f.write(json.dumps(rec, ensure_ascii=False) + "\n")] *)
Definition write_record (p : path) (rec : pyval) : io unit :=
  io_of_res (dumps rec) ≫= fun line => f_write p (line ++ [10%N]).

(** [for rec in records: body(rec)] *)
Fixpoint for_ {A} (l : list A) (body : A -> io unit) : io unit :=
  match l with
  | [] => mret ()
  | a :: l' => body a ≫= fun _ => for_ l' body
  end.

(** The [Optional[int]] limit: [None] or an [int]. *)
Abbreviation limit_t := (option Z) (only parsing).

(** ** [scripts/01_collect_raw.py] *)
Module CollectRaw.

(** [RAW_DIR = Path("../data/raw")] *)
Definition RAW_DIR : path := [lit ".."; lit "data"; lit "raw"].

(** [write_jsonl(path, records, total)], [records] being the sequence
    the iterable yields. The progress bar's description is computed
    once the file is open, and needs [path] to lie under [RAW_DIR]. *)
Definition write_jsonl (path : path) (records : list pyval) : io unit :=
  mkdir_parents (parent path) ≫= fun _ =>
  open_w path ≫= fun _ =>
  (if starts_with RAW_DIR path then mret () else io_raise ValueError) ≫= fun _ =>
  for_ records (write_record path).

(** [take(iterable, limit)]. The state is the state of [iterable], the
    counter [n], and whether the generator is suspended at its [yield]
    (so that the next call first runs [n += 1] and the [break] test). *)
Definition take {A S} (nx : S -> gstep A S) (limit : limit_t)
    (st : S * Z * bool) : gstep A (S * Z * bool) :=
  let '(s, n, at_yield) := st in
  match limit with
  | None => loop_turn nx s n
  | Some l =>
      if at_yield then
        let n' := (n + 1)%Z in
        if (n' >=? l)%Z then GStop (s, n', false) else loop_turn nx s n'
      else loop_turn nx s n
  end.

(** [(ex.get(k) or "").strip()] *)
Definition get_stripped (ex : dict) (k : str) : res str :=
  call_strip (py_or (dict_get ex k) (PStr [])).

Module collect_samanantar.
(** Loop body of [gen_parallel]. *)
Definition gen_parallel_body (ex : dict) : res (option pyval) :=
  src ← get_stripped ex (lit "src");
  tgt ← get_stripped ex (lit "tgt");
  mret (if nonempty src && nonempty tgt
        then Some (PDict [(lit "src_lang", PStr (lit "en"));
                          (lit "tgt_lang", PStr (lit "hi"));
                          (lit "src", PStr src);
                          (lit "tgt", PStr tgt)])
        else None).

Definition gen_parallel (ds : source) := for_each gen_parallel_body ds.

(** Loop body of [gen_hi]. *)
Definition gen_hi_body (ex : dict) : res (option pyval) :=
  tgt ← get_stripped ex (lit "tgt");
  mret (if nonempty tgt
        then Some (PDict [(lit "lang", PStr (lit "hi"));
                          (lit "text", PStr tgt)])
        else None).

Definition gen_hi (ds : source) := for_each gen_hi_body ds.
End collect_samanantar.

Module collect_wikipedia.
Definition gen_body (ex : dict) : res (option pyval) :=
  text ← get_stripped ex (lit "text");
  mret (if nonempty text
        then Some (PDict [(lit "lang", PStr (lit "hi"));
                          (lit "text", PStr text);
                          (lit "title", py_or (dict_get ex (lit "title")) (PStr []));
                          (lit "url", py_or (dict_get ex (lit "url")) (PStr []))])
        else None).

Definition gen (ds : source) := for_each gen_body ds.
End collect_wikipedia.

(** [[t.strip() for t in x if isinstance(t, str) and t.strip()]] *)
Definition str_parts (l : list pyval) : list str :=
  omap (fun t => match t with
                 | PStr s => if nonempty (str_strip s) then Some (str_strip s) else None
                 | _ => None
                 end) l.

(** [_to_str(x)] *)
Fixpoint _to_str (x : pyval) : option str :=
  match x with
  | PNone => None
  | PStr s => Some (str_strip s)
  | PList l | PTuple l =>
      let parts := str_parts l in
      if nonempty parts then Some (join (lit " ") parts) else None
  | PDict d =>
      (* v = x.get("text"); return _to_str(v) *)
      (fix get (d : list (str * pyval)) : option str :=
         match d with
         | [] => None
         | (k, v) :: d' => if str_eqb k (lit "text") then _to_str v else get d'
         end) d
  | _ => None
  end.

Module collect_wikilingua.
(** The (builder, config) pairs, in the order tried. *)
Definition candidates : list (str * str) :=
  [(lit "wiki_lingua", lit "hindi");
   (lit "wikilingua", lit "hi");
   (lit "wiki_lingua", lit "hi")].

(** What [load_dataset(builder, config, ...)] does: a handle, or an
    [Exception] [e] of which [reason] is [str(e)]. *)
Inductive loaded (H : Type) : Type :=
| Loaded (ds : H)
| LoadFailed (reason : str).
Arguments Loaded {H} ds.
Arguments LoadFailed {H} reason.

Section Resolve.
Context {H : Type} (load_dataset : str -> str -> loaded H).

(** [f"{builder}/{config}: {e}"] *)
Definition tried_entry (builder config reason : str) : str :=
  builder ++ lit "/" ++ config ++ lit ": " ++ reason.

(** The [for builder, config in [...]] loop: the final [ds] and
    [tried]. *)
Fixpoint try_candidates (cands : list (str * str)) (tried : list str)
    : option H * list str :=
  match cands with
  | [] => (None, tried)
  | (builder, config) :: rest =>
      match load_dataset builder config with
      | Loaded ds => (Some ds, tried)
      | LoadFailed e =>
          try_candidates rest (tried ++ [tried_entry builder config e])
      end
  end.

Definition could_not_load (tried : list str) : str :=
  lit "Could not load WikiLingua Hindi. Tried:" ++ [10%N] ++ lit "  - "
    ++ join ([10%N] ++ lit "  - ") tried.

(** The resolution at the head of [collect_wikilingua]. *)
Definition resolve : res H :=
  match try_candidates candidates [] with
  | (Some ds, _) => Ok ds
  | (None, tried) => Raise (RuntimeError (could_not_load tried))
  end.
End Resolve.

Definition gen_body (ex : dict) : res (option pyval) :=
  let url := dict_get_or ex (lit "url") (PStr []) in
  let article := _to_str (dict_get ex (lit "article")) in
  let summary := _to_str (dict_get ex (lit "summary")) in
  let summary :=
    if negb (opt_truthy summary)
    then opt_or (_to_str (dict_get ex (lit "highlights")))
                (_to_str (dict_get ex (lit "summary_text")))
    else summary in
  mret (match article, summary with
        | Some a, Some s =>
            if nonempty a && nonempty s
            then Some (PDict [(lit "lang", PStr (lit "hi"));
                              (lit "article", PStr a);
                              (lit "summary", PStr s);
                              (lit "url", url)])
            else None
        | _, _ => None
        end).

Definition gen (ds : source) := for_each gen_body ds.
End collect_wikilingua.

Module collect_indicllm.
Definition gen_body (ex : dict) : res (option pyval) :=
  let txt := py_or (dict_get ex (lit "text"))
               (py_or (dict_get ex (lit "content")) (PStr [])) in
  txt ← call_strip txt;
  mret (if nonempty txt
        then Some (PDict [(lit "lang", PStr (lit "hi_like"));
                          (lit "text", PStr txt);
                          (lit "note", PStr (lit "unfiltered_mixed_hindi_family"))])
        else None).

Definition gen (ds : source) := for_each gen_body ds.
End collect_indicllm.

End CollectRaw.

(** ** [download_data.py] *)
Module DownloadData.

(** [RAW_DIR = Path("data/raw")] *)
Definition RAW_DIR : path := [lit "data"; lit "raw"].

(** [write_jsonl(path, records, total)], [records] being the sequence
    the iterable yields. *)
Definition write_jsonl (path : path) (records : list pyval) : io unit :=
  mkdir_parents (parent path) ≫= fun _ =>
  open_w path ≫= fun _ =>
  for_ records (write_record path).

(** [k in x and isinstance(x[k], str)], with the string found. *)
Definition str_field (d : dict) (k : str) : option str :=
  match dict_lookup d k with
  | Some (PStr s) => Some s
  | _ => None
  end.

(** [for k in (...): if k in x and isinstance(x[k], str): return x[k].strip()] *)
Fixpoint first_str_field (d : dict) (ks : list str) : option str :=
  match ks with
  | [] => None
  | k :: ks' =>
      match str_field d k with
      | Some s => Some (str_strip s)
      | None => first_str_field d ks'
      end
  end.

Definition normalize_text (x : pyval) : option str :=
  match x with
  | PDict d =>
      match first_str_field d [lit "text"; lit "content"] with
      | Some r => Some r
      | None =>
          match str_field d (lit "tgt") with
          | Some s => Some (str_strip s)
          | None => None
          end
      end
  | _ => None
  end.

(** Truth value of the limit in [if limit and n >= limit]. *)
Definition limit_truthy (limit : limit_t) : bool :=
  match limit with
  | Some l => negb (l =? 0)%Z
  | None => false
  end.

(** Loop body of [iter_text]. *)
Definition iter_text_body (ex : dict) : res (option pyval) :=
  let txt := normalize_text (PDict ex) in
  mret (if opt_truthy txt
        then Some (PDict [(lit "text", of_opt txt)])
        else None).

(** [iter_text(ds_split, limit)]. The state is the cursor into
    [ds_split], [n], and whether the generator is suspended at its
    [yield]. *)
Definition iter_text (ds : source) (limit : limit_t)
    (st : nat * Z * bool) : gstep pyval (nat * Z * bool) :=
  let '(pos, n, at_yield) := st in
  if at_yield then
    let n' := (n + 1)%Z in
    if limit_truthy limit && (n' >=? default 0%Z limit)%Z
    then GStop (pos, n', false)
    else loop_turn (for_each iter_text_body ds) pos n'
  else loop_turn (for_each iter_text_body ds) pos n.

End DownloadData.

(** ** The collectors *)

(** [write_jsonl(path, records)] with a generator for [records]: the
    writer's loop drains it, and an exception of the generator leaves
    the loop after the lines written so far. [None] when [fuel] steps
    do not drain the generator. *)
Definition write_generated {S} (write_jsonl : list (list N) -> list pyval -> io unit)
    (outpath : path) (nx : S -> gstep pyval S) (s0 : S) (fuel : nat)
    : option (io unit) :=
  match drain nx fuel s0 with
  | Some (records, _, e) =>
      Some (write_jsonl outpath records ≫= fun _ =>
            match e with
            | Some x => io_raise x
            | None => mret ()
            end)
  | None => None
  end.

(** The collectors of [scripts/01_collect_raw.py], the datasets that
    [load_dataset] returns being given. *)
Module CollectRawRun.

Definition out_parallel : path :=
  CollectRaw.RAW_DIR ++ [lit "samanantar"; lit "en_hi_parallel.jsonl"].

Definition out_hi : path :=
  CollectRaw.RAW_DIR ++ [lit "samanantar"; lit "hi_mono.jsonl"].

(** [collect_samanantar(limit, streaming)]: [ds] and [ds_hi] are the two
    loads of the dataset. *)
Definition collect_samanantar (ds ds_hi : source) (limit : limit_t) (fuel : nat)
    : option (io unit) :=
  match write_generated CollectRaw.write_jsonl out_parallel
          (CollectRaw.take (CollectRaw.collect_samanantar.gen_parallel ds) limit)
          (0, 0%Z, false) fuel,
        write_generated CollectRaw.write_jsonl out_hi
          (CollectRaw.take (CollectRaw.collect_samanantar.gen_hi ds_hi) limit)
          (0, 0%Z, false) fuel with
  | Some w1, Some w2 => Some (w1 ≫= fun _ => w2)
  | _, _ => None
  end.

(** [collect_wikipedia(limit, streaming, snapshot)] *)
Definition collect_wikipedia (ds : source) (limit : limit_t) (fuel : nat)
    : option (io unit) :=
  write_generated CollectRaw.write_jsonl
    (CollectRaw.RAW_DIR ++ [lit "wikipedia"; lit "hi_mono.jsonl"])
    (CollectRaw.take (CollectRaw.collect_wikipedia.gen ds) limit) (0, 0%Z, false) fuel.

(** [collect_wikilingua(limit, streaming)] *)
Definition collect_wikilingua
    (load_dataset : str -> str -> CollectRaw.collect_wikilingua.loaded source)
    (limit : limit_t) (fuel : nat) : option (io unit) :=
  match CollectRaw.collect_wikilingua.resolve load_dataset with
  | Raise e => Some (io_raise e)
  | Ok ds =>
      write_generated CollectRaw.write_jsonl
        (CollectRaw.RAW_DIR ++ [lit "wikilingua"; lit "hi_sum.jsonl"])
        (CollectRaw.take (CollectRaw.collect_wikilingua.gen ds) limit) (0, 0%Z, false) fuel
  end.

(** [collect_indicllm(limit, streaming)] *)
Definition collect_indicllm (ds : source) (limit : limit_t) (fuel : nat)
    : option (io unit) :=
  write_generated CollectRaw.write_jsonl
    (CollectRaw.RAW_DIR ++ [lit "indicllm"; lit "hi_mixed.jsonl"])
    (CollectRaw.take (CollectRaw.collect_indicllm.gen ds) limit) (0, 0%Z, false) fuel.

(** The four sources [--sources] chooses from. *)
Inductive collector : Type :=
| Samanantar
| Wikipedia
| Wikilingua
| Indicllm.

(** [name in args.sources] *)
Definition mem (name : str) (sources : list str) : bool :=
  existsb (str_eqb name) sources.

(** [main()] once the arguments are parsed: [sources] is
    [args.sources], and [collect c] the call of the collector [c] with
    the parsed limit and streaming flag. *)
Definition main (sources : list str) (collect : collector -> io unit) : io unit :=
  mkdir_parents CollectRaw.RAW_DIR ≫= fun _ =>
  (if mem (lit "samanantar") sources then collect Samanantar else mret ()) ≫= fun _ =>
  (if mem (lit "wikipedia") sources then collect Wikipedia else mret ()) ≫= fun _ =>
  (if mem (lit "wikilingua") sources then collect Wikilingua else mret ()) ≫= fun _ =>
  (if mem (lit "indicllm") sources then collect Indicllm else mret ()).

End CollectRawRun.

(** The collectors of [download_data.py]. *)
Module DownloadDataRun.

(** The [total] handed to the progress bar:
    [None if streaming else (len(ds) if not limit else min(len(ds), limit))]. *)
Definition declared_total (streaming : bool) (len_ds : Z) (limit : limit_t)
    : option Z :=
  if streaming then None
  else Some (if negb (DownloadData.limit_truthy limit) then len_ds
             else Z.min len_ds (default 0%Z limit)).

(** [collect_samanantar(limit, streaming)] *)
Definition collect_samanantar (ds : source) (limit : limit_t) (fuel : nat)
    : option (io unit) :=
  write_generated DownloadData.write_jsonl
    (DownloadData.RAW_DIR ++ [lit "samanantar_hi.jsonl"])
    (DownloadData.iter_text ds limit) (0, 0%Z, false) fuel.

(** [collect_indicLLM(limit, streaming)] *)
Definition collect_indicLLM (ds : source) (limit : limit_t) (fuel : nat)
    : option (io unit) :=
  write_generated DownloadData.write_jsonl
    (DownloadData.RAW_DIR ++ [lit "indicllm_hi.jsonl"])
    (DownloadData.iter_text ds limit) (0, 0%Z, false) fuel.

(** [collect_wiki(limit, streaming)] *)
Definition collect_wiki (ds : source) (limit : limit_t) (fuel : nat)
    : option (io unit) :=
  write_generated DownloadData.write_jsonl
    (DownloadData.RAW_DIR ++ [lit "wikipedia_hi.jsonl"])
    (DownloadData.iter_text ds limit) (0, 0%Z, false) fuel.

End DownloadDataRun.

(** ** Vocabulary of the statements *)

(** A record with a [lang] string and a [text] string that is not empty
    once stripped. *)
Definition has_lang_and_text (r : pyval) : Prop :=
  exists d l t, r = PDict d
    /\ dict_lookup d (lit "lang") = Some (PStr l)
    /\ dict_lookup d (lit "text") = Some (PStr t)
    /\ str_strip t <> [].


(** A value [(v or "").strip()] works on: a string, or a false value. *)
Definition str_or_falsy (v : pyval) : bool :=
  match v with
  | PStr _ => true
  | _ => negb (truthy v)
  end.

(** What the loop body [f] emits over the raw records [raw], in order. *)
Definition normalized (f : list (str * pyval) -> res (option pyval))
    (raw : list (list (str * pyval))) : list pyval :=
  omap (fun ex => match f ex with Ok o => o | Raise _ => None end) raw.

(** How many of the raw records [raw] must be pulled to emit [k]
    records: up to and with the [k]-th one that [f] keeps, or all of
    them when there are fewer. *)
Fixpoint pulls_needed (f : list (str * pyval) -> res (option pyval)) (k : nat)
    (raw : list (list (str * pyval))) : nat :=
  match raw with
  | [] => 0
  | ex :: raw' =>
      match k with
      | O => 0
      | S k' => S (pulls_needed f (match f ex with Ok (Some _) => k' | _ => k end) raw')
      end
  end.

(** A budget of records still to emit, or none. *)
Definition within {A} (budget : option nat) (out : list A) : list A :=
  match budget with Some k => firstn k out | None => out end.

Definition pulls_within (f : list (str * pyval) -> res (option pyval))
    (budget : option nat) (raw : list (list (str * pyval))) : nat :=
  match budget with Some k => pulls_needed f k raw | None => length raw end.

(** The common shape of [take] with a limit and of [iter_text]: a loop
    under a counter, left when [brk] holds of the counter after a
    yield. *)
Definition bounded {A S} (brk : Z -> bool) (nx : S -> gstep A S)
    (st : S * Z * bool) : gstep A (S * Z * bool) :=
  let '(s, n, at_yield) := st in
  if at_yield then
    let n' := (n + 1)%Z in
    if brk n' then GStop (s, n', false) else loop_turn nx s n'
  else loop_turn nx s n.

(** The budget [k] left when the counter is [n], for the break test
    [cond and n >= l]. *)
Definition budget_at (cond : bool) (l : Z) (budget : option nat) (n : Z) : Prop :=
  match budget with
  | Some k => cond = true /\ 1 <= k /\ Z.of_nat k = (l - n)%Z
  | None => cond = false
  end.

(** An unbounded source: a record with a [tgt] text at every even
    position, an empty record at every odd one. *)
Definition alternating : source :=
  fun i => Some (if Nat.even i then [(lit "tgt", PStr (lit "a"))] else []).

(** The text of a file of records: each record's JSON text followed by
    a line feed. *)
Definition jsonl_text (records : list pyval) : str :=
  concat (map (fun rec => json_dumps rec ++ [10%N]) records).

(** A record the writer can write: [json.dumps] prints it and the text
    can be encoded. *)
Definition writable (rec : pyval) : bool :=
  dumpable rec && utf8_encodable (json_dumps rec).

(** What a generator yields within [fuel] steps, run alone. *)
Fixpoint yielded {A T} (nx : T -> gstep A T) (fuel : nat) (s : T) : list A :=
  match fuel with
  | O => []
  | S k =>
      match nx s with
      | GYield a s' => a :: yielded nx k s'
      | GSkip s' => yielded nx k s'
      | GStop _ => []
      | GRaise _ _ => []
      end
  end.



(** The output path of [collect_wikipedia], and that of [collect_wiki]. *)
Definition wiki_path : path :=
  CollectRaw.RAW_DIR ++ [lit "wikipedia"; lit "hi_mono.jsonl"].

Definition wiki_hi_path : path :=
  DownloadData.RAW_DIR ++ [lit "wikipedia_hi.jsonl"].

(** A file system where [data/raw/wikipedia_hi.jsonl] is left from an
    earlier run. *)
Definition after_a_run : fsys :=
  <[wiki_hi_path := File (lit "old")]>
    (<[DownloadData.RAW_DIR := Dir]> (<[[lit "data"] := Dir]> ∅)).

(** The records a limit lets [take] yield: all of them, or the first
    [max(1, l)]. *)
Definition limited {A} (limit : option Z) (out : list A) : list A :=
  match limit with
  | Some l => firstn (Z.to_nat (Z.max 1 l)) out
  | None => out
  end.

(** The records a limit lets [iter_text] yield: all of them under no
    limit or the limit 0, the first [l] under a limit [l >= 1], the
    first one under a negative limit. *)
Definition iter_limited {A} (limit : option Z) (out : list A) : list A :=
  match limit with
  | Some l => if (l =? 0)%Z then out else firstn (Z.to_nat (Z.max 1 l)) out
  | None => out
  end.

(** The [tgt] of a parallel record and the [text] of a monolingual one. *)
Definition tgt_of (r : pyval) : pyval :=
  match r with PDict d => dict_get d (lit "tgt") | _ => PNone end.

Definition text_of (r : pyval) : pyval :=
  match r with PDict d => dict_get d (lit "text") | _ => PNone end.

(** A file system where [data/raw] is a regular file. *)
Definition raw_is_a_file : fsys :=
  <[DownloadData.RAW_DIR := File (lit "x")]> (<[[lit "data"] := Dir]> ∅).

(** The output path of [collect_wikilingua]. *)
Definition lingua_path : path :=
  CollectRaw.RAW_DIR ++ [lit "wikilingua"; lit "hi_sum.jsonl"].

(** A provider whose second candidate loads a dataset of one article
    with its highlights. *)
Definition one_article (builder config : str)
    : CollectRaw.collect_wikilingua.loaded source :=
  if str_eqb builder (lit "wikilingua") && str_eqb config (lit "hi")
  then CollectRaw.collect_wikilingua.Loaded
         (of_list [[(lit "article", PList [PStr (lit "A"); PStr (lit "B")]);
                    (lit "highlights", PStr (lit "S"))]])
  else CollectRaw.collect_wikilingua.LoadFailed (lit "not found").

(** A stand-in for the collectors: each writes an empty file at its own
    output path. *)
Definition touch_output (c : CollectRawRun.collector) : io unit :=
  CollectRaw.write_jsonl
    (match c with
     | CollectRawRun.Samanantar => CollectRawRun.out_hi
     | CollectRawRun.Wikipedia => wiki_path
     | CollectRawRun.Wikilingua => lingua_path
     | CollectRawRun.Indicllm =>
         CollectRaw.RAW_DIR ++ [lit "indicllm"; lit "hi_mixed.jsonl"]
     end) [].

(** The candidate [(builder, config)] does not load. *)
Definition load_fails {H} (load_dataset : str -> str -> CollectRaw.collect_wikilingua.loaded H)
    (bc : str * str) : Prop :=
  exists e, load_dataset bc.1 bc.2 = CollectRaw.collect_wikilingua.LoadFailed e.

(** A provider on which only the second candidate loads, and one on
    which none does. *)
Definition only_wikilingua_hi (builder config : str)
    : CollectRaw.collect_wikilingua.loaded nat :=
  if str_eqb builder (lit "wikilingua") && str_eqb config (lit "hi")
  then CollectRaw.collect_wikilingua.Loaded 7
  else CollectRaw.collect_wikilingua.LoadFailed (lit "not found").

Definition nothing_loads (builder config : str)
    : CollectRaw.collect_wikilingua.loaded nat :=
  CollectRaw.collect_wikilingua.LoadFailed (builder ++ lit "?").

(** * Properties *)

(** ** Tactics *)

(** Unfold the sequencing of results and of file-system actions. *)
Ltac unfold_res := unfold mbind, res_bind, mret, res_ret in *.

Ltac unfold_io := unfold mbind, io_bind, mret, io_ret, io_raise in *.

(** The stripped empty string is empty. *)
Ltac empty_strip :=
  let N := fresh in intros [= <-] N; exfalso; apply N; reflexivity.

(** No regular file at a proper prefix of a concrete path. *)
Ltac free_prefixes :=
  let i := fresh "i" in let txt := fresh "txt" in let Hi := fresh "Hi" in
  intros i txt Hi;
  do 6 (destruct i as [|i]; [first [simpl in Hi; lia | vm_compute; discriminate]|]);
  simpl in Hi; lia.

(** ** White-space stripping *)
Section StripFacts.
Context {A : Type} (sp : A -> bool).
Local Abbreviation lstrip := (lstrip sp).
Local Abbreviation rstrip := (rstrip sp).
Local Abbreviation strip := (strip sp).
Local Abbreviation trimmed := (trimmed sp).

Lemma lstrip_decomp s :
  exists w, s = w ++ lstrip s /\ forallb sp w = true.
Proof.
  induction s as [|c s [w [E W]]]; simpl.
  - exists []. auto.
  - destruct (sp c) eqn:C.
    + exists (c :: w). simpl. rewrite C, W. split; [congruence | reflexivity].
    + exists []. auto.
Qed.

Lemma lstrip_head s c t : lstrip s = c :: t -> sp c = false.
Proof.
  induction s as [|a s IH]; simpl; [discriminate|].
  destruct (sp a) eqn:C; [exact IH|].
  intros [= <- _]. exact C.
Qed.

Lemma rstrip_decomp s :
  exists w, s = rstrip s ++ w /\ forallb sp w = true.
Proof.
  induction s as [|c s [w [E W]]]; simpl.
  - exists []. auto.
  - destruct (rstrip s) as [|r rs] eqn:R; simpl in E.
    + destruct (sp c) eqn:C.
      * exists (c :: w). simpl. rewrite C, W. split; [congruence | reflexivity].
      * exists w. simpl. split; [congruence | exact W].
    + exists w. split; [simpl; congruence | exact W].
Qed.

Lemma rstrip_last s t c : rstrip s = t ++ [c] -> sp c = false.
Proof.
  revert t. induction s as [|a s IH]; simpl; intros t.
  - destruct t; discriminate.
  - destruct (rstrip s) as [|r rs] eqn:R.
    + destruct (sp a) eqn:C.
      * destruct t; discriminate.
      * destruct t as [|x [|y t]]; simpl; try discriminate.
        intros [= <-]. exact C.
    + destruct t as [|x t]; simpl; [discriminate|].
      intros [= _ E]. exact (IH t E).
Qed.

Lemma rstrip_app_nonempty x y :
  rstrip y <> [] -> rstrip (x ++ y) = x ++ rstrip y.
Proof.
  intros Hy. induction x as [|a x IH]; simpl; [reflexivity|].
  rewrite IH. destruct (x ++ rstrip y) eqn:E; [|reflexivity].
  apply app_eq_nil in E. tauto.
Qed.

Lemma rstrip_idem s : rstrip (rstrip s) = rstrip s.
Proof.
  induction s as [|c s IH]; simpl; [reflexivity|].
  destruct (rstrip s) as [|r rs] eqn:R.
  - destruct (sp c) eqn:C; simpl; [reflexivity|]. rewrite C. reflexivity.
  - change (c :: r :: rs) with ([c] ++ r :: rs).
    rewrite rstrip_app_nonempty; rewrite IH; [reflexivity | discriminate].
Qed.

Lemma lstrip_idem s : lstrip (lstrip s) = lstrip s.
Proof.
  induction s as [|c s IH]; simpl; [reflexivity|].
  destruct (sp c) eqn:C; [exact IH|]. simpl. rewrite C. reflexivity.
Qed.

Lemma lstrip_fixed_cons c t : sp c = false -> lstrip (c :: t) = c :: t.
Proof. intros C. simpl. rewrite C. reflexivity. Qed.

Lemma lstrip_fixed_inv s :
  lstrip s = s -> s = [] \/ exists c t, s = c :: t /\ sp c = false.
Proof.
  destruct s as [|c t]; [auto|]. intros E. right. exists c, t.
  split; [reflexivity|]. exact (lstrip_head _ _ _ E).
Qed.

Lemma rstrip_keeps_head c t :
  sp c = false -> exists t', rstrip (c :: t) = c :: t'.
Proof.
  intros C. simpl. destruct (rstrip t) as [|r rs].
  - rewrite C. eauto.
  - eauto.
Qed.

Lemma lstrip_rstrip_fixed s : lstrip s = s -> lstrip (rstrip s) = rstrip s.
Proof.
  intros E. destruct (lstrip_fixed_inv s E) as [-> | (c & t & -> & C)].
  - reflexivity.
  - destruct (rstrip_keeps_head c t C) as [t' ->].
    apply lstrip_fixed_cons, C.
Qed.

Lemma strip_trimmed s : trimmed (strip s).
Proof.
  unfold trimmed, strip. split.
  - apply lstrip_rstrip_fixed, lstrip_idem.
  - apply rstrip_idem.
Qed.

Lemma trimmed_strip s : trimmed s -> strip s = s.
Proof. intros [L R]. unfold strip. rewrite L. exact R. Qed.

Lemma strip_fixed_trimmed s : strip s = s -> trimmed s.
Proof. intros E. rewrite <- E. apply strip_trimmed. Qed.

Lemma strip_idem s : strip (strip s) = strip s.
Proof. apply trimmed_strip, strip_trimmed. Qed.

(** [strip] removes a white-space prefix and a white-space suffix, and
    what is left neither starts nor ends with white space. *)
Lemma strip_decomp s :
  exists l r, s = l ++ strip s ++ r
              /\ forallb sp l = true /\ forallb sp r = true.
Proof.
  destruct (lstrip_decomp s) as (l & El & Wl).
  destruct (rstrip_decomp (lstrip s)) as (r & Er & Wr).
  exists l, r. unfold strip. rewrite <- Er. auto.
Qed.

Lemma strip_first s c t : strip s = c :: t -> sp c = false.
Proof.
  intros E. destruct (strip_trimmed s) as [L _]. rewrite E in L.
  exact (lstrip_head _ _ _ L).
Qed.

Lemma strip_last s t c : strip s = t ++ [c] -> sp c = false.
Proof. unfold strip. apply rstrip_last. Qed.

Lemma lstrip_app_fixed x y : x <> [] -> lstrip x = x -> lstrip (x ++ y) = x ++ y.
Proof.
  intros Hx E. destruct (lstrip_fixed_inv x E) as [-> | (c & t & -> & C)].
  - congruence.
  - simpl. rewrite C. reflexivity.
Qed.

Lemma join_nonempty (sep : list A) parts :
  parts <> [] -> Forall (fun p => p <> []) parts -> join sep parts <> [].
Proof.
  intros Hne Hall. destruct Hall as [|x rest Hx Hrest]; [congruence|].
  simpl. destruct rest; [exact Hx|].
  intros E. apply app_eq_nil in E. tauto.
Qed.

Lemma join_trimmed (sep : list A) parts :
  Forall (fun p => p <> [] /\ trimmed p) parts -> trimmed (join sep parts).
Proof.
  induction 1 as [|x rest [Hx [Lx Rx]] Hrest IH].
  - split; reflexivity.
  - simpl. destruct rest as [|y rest]; [split; assumption|].
    assert (Hj : join sep (y :: rest) <> []).
    { apply join_nonempty; [discriminate|].
      eapply Forall_impl; [exact Hrest|]. simpl. tauto. }
    destruct IH as [_ Rj]. split.
    + apply lstrip_app_fixed; assumption.
    + rewrite app_assoc. rewrite rstrip_app_nonempty; rewrite Rj; [reflexivity | exact Hj].
Qed.
End StripFacts.

Lemma str_eqb_eq a b : str_eqb a b = true <-> a = b.
Proof.
  revert b. induction a as [|x a IH]; intros [|y b]; simpl; split;
    try discriminate; try reflexivity.
  - intros [E1 E2]%andb_true_iff. apply N.eqb_eq in E1. apply IH in E2. congruence.
  - intros [= -> ->]. rewrite N.eqb_refl. simpl. apply IH. reflexivity.
Qed.

Lemma str_eqb_refl a : str_eqb a a = true.
Proof. apply str_eqb_eq. reflexivity. Qed.

Lemma nonempty_true {A} (s : list A) : nonempty s = true <-> s <> [].
Proof. destruct s; simpl; split; congruence. Qed.

Lemma nonempty_false {A} (s : list A) : nonempty s = false <-> s = [].
Proof. destruct s; simpl; split; congruence. Qed.

(** What [s.strip()] is: [s] without a white-space prefix and a
    white-space suffix, and neither starting nor ending with white
    space. *)
Lemma str_strip_spec (s : str) :
  (exists l r, s = l ++ str_strip s ++ r
               /\ forallb py_isspace l = true /\ forallb py_isspace r = true)
  /\ (forall c t, str_strip s = c :: t -> py_isspace c = false)
  /\ (forall t c, str_strip s = t ++ [c] -> py_isspace c = false).
Proof.
  split; [apply strip_decomp|]. split.
  - apply strip_first.
  - apply strip_last.
Qed.

(** ** Induction on values, through lists and dictionaries *)
Lemma pyval_induction (P : pyval -> Prop) :
  P PNone ->
  (forall b, P (PBool b)) ->
  (forall z, P (PInt z)) ->
  (forall s, P (PStr s)) ->
  (forall l, Forall P l -> P (PList l)) ->
  (forall l, Forall P l -> P (PTuple l)) ->
  (forall d, Forall (fun kv => P kv.2) d -> P (PDict d)) ->
  forall x, P x.
Proof.
  intros HN HB HI HS HL HT HD. fix IH 1. intros [ |b|z|s|l|l|d].
  - exact HN.
  - apply HB.
  - apply HI.
  - apply HS.
  - apply HL. induction l as [|x l IHl]; constructor; [apply IH | exact IHl].
  - apply HT. induction l as [|x l IHl]; constructor; [apply IH | exact IHl].
  - apply HD. induction d as [|[k v] d IHd]; constructor; [apply IH | exact IHd].
Qed.

(** ** The field extractors *)
Import CollectRaw.

Lemma str_parts_trimmed l :
  Forall (fun p => p <> [] /\ trimmed py_isspace p) (str_parts l).
Proof.
  induction l as [|t l IH]; [constructor|].
  unfold str_parts. simpl. fold (str_parts l).
  destruct t as [ | | |s| | | ]; try exact IH.
  destruct (nonempty (str_strip s)) eqn:E; [|exact IH].
  constructor; [|exact IH]. split.
  - apply nonempty_true, E.
  - apply strip_trimmed.
Qed.

Lemma to_str_list l :
  _to_str (PList l)
  = if nonempty (str_parts l) then Some (join (lit " ") (str_parts l)) else None.
Proof. reflexivity. Qed.

Lemma to_str_tuple l :
  _to_str (PTuple l)
  = if nonempty (str_parts l) then Some (join (lit " ") (str_parts l)) else None.
Proof. reflexivity. Qed.

(** The dictionary branch is the recursive call on [x.get("text")]. *)
Lemma to_str_dict d :
  _to_str (PDict d) = _to_str (dict_get d (lit "text")).
Proof.
  induction d as [|[k v] d IH]; [reflexivity|].
  unfold dict_get in *. simpl in *.
  destruct (str_eqb k (lit "text")); [reflexivity | exact IH].
Qed.

Lemma to_str_trimmed x s : _to_str x = Some s -> trimmed py_isspace s.
Proof.
  revert s. induction x as [ |b|z|s0|l _|l _|d IH] using pyval_induction; intros s.
  - discriminate.
  - discriminate.
  - discriminate.
  - intros [= <-]. apply strip_trimmed.
  - rewrite to_str_list. destruct (nonempty (str_parts l)); [|discriminate].
    intros [= <-]. apply join_trimmed, str_parts_trimmed.
  - rewrite to_str_tuple. destruct (nonempty (str_parts l)); [|discriminate].
    intros [= <-]. apply join_trimmed, str_parts_trimmed.
  - rewrite to_str_dict. unfold dict_get.
    induction IH as [|[k v] d Hv _ IHd]; simpl; [discriminate|].
    destruct (str_eqb k (lit "text")); [apply Hv | apply IHd].
Qed.

(** C5, as stated, at a white-space string: the extractors answer the
    empty string, not [None]. *)
Lemma C5_blank_string_is_not_none :
  str_strip (lit "   ") = []
  /\ _to_str (PStr (lit "   ")) = Some []
  /\ _to_str (PStr (lit "   ")) <> None
  /\ DownloadData.normalize_text (PDict [(lit "text", PStr (lit "   "))]) = Some []
  /\ DownloadData.normalize_text (PDict [(lit "text", PStr (lit "   "))]) <> None.
Proof. repeat split; try reflexivity; discriminate. Qed.

(** C5 (amended): on a string, [_to_str] and the string branches of
    [normalize_text] answer the string stripped of leading and trailing
    white space, which is the empty string (a false value for the
    callers, not [None]) when nothing else is left; on [None] and on a
    missing key [_to_str] answers [None], and [normalize_text] answers
    [None] when none of [text], [content], [tgt] holds a string. *)
Theorem C5_extractors_strip_strings (s : str) (d : list (str * pyval)) (k : str) :
  _to_str (PStr s) = Some (str_strip s)
  /\ (exists l r, s = l ++ str_strip s ++ r
                  /\ forallb py_isspace l = true /\ forallb py_isspace r = true)
  /\ trimmed py_isspace (str_strip s)
  /\ (opt_truthy (_to_str (PStr s)) = false <-> str_strip s = [])
  /\ _to_str PNone = None
  /\ (dict_lookup d k = None -> _to_str (dict_get d k) = None)
  /\ DownloadData.normalize_text (PDict d)
     = match DownloadData.str_field d (lit "text"),
             DownloadData.str_field d (lit "content"),
             DownloadData.str_field d (lit "tgt") with
       | Some t, _, _ => Some (str_strip t)
       | None, Some t, _ => Some (str_strip t)
       | None, None, Some t => Some (str_strip t)
       | None, None, None => None
       end
  /\ DownloadData.normalize_text (PDict ((lit "text", PStr s) :: d)) = Some (str_strip s).
Proof.
  split; [reflexivity|]. split; [apply strip_decomp|].
  split; [apply strip_trimmed|]. split; [simpl; apply nonempty_false|].
  split; [reflexivity|]. split.
  - intros E. unfold dict_get. rewrite E. reflexivity.
  - split; [|reflexivity]. simpl.
    destruct (DownloadData.str_field d (lit "text")); [reflexivity|].
    destruct (DownloadData.str_field d (lit "content")); [reflexivity|].
    destruct (DownloadData.str_field d (lit "tgt")); reflexivity.
Qed.

(** C5 at a record with blanks around its text and no [summary] key. *)
Lemma C5_extractors_strip_strings_witness :
  _to_str (PStr (lit " a b ")) = Some (lit "a b")
  /\ _to_str (dict_get [(lit "text", PStr (lit " a b "))] (lit "summary")) = None.
Proof.
  pose proof (C5_extractors_strip_strings (lit " a b ")
                [(lit "text", PStr (lit " a b "))] (lit "summary"))
    as (H1 & _ & _ & _ & _ & H6 & _).
  split; [exact H1 | apply H6; reflexivity].
Defined.

(** C10: [_to_str] answers [None] or a string that is its own strip, and
    applying it to its own result changes nothing. *)
Theorem C10_to_str_trimmed_and_idempotent (x : pyval) :
  (_to_str x = None \/ exists s, _to_str x = Some s /\ str_strip s = s)
  /\ _to_str (of_opt (_to_str x)) = _to_str x.
Proof.
  destruct (_to_str x) as [s|] eqn:E.
  - pose proof (trimmed_strip _ _ (to_str_trimmed _ _ E)) as T. split.
    + right. exists s. split; [reflexivity | exact T].
    + simpl. unfold str_strip in T |- *. rewrite T. reflexivity.
  - split; [left|]; reflexivity.
Qed.

(** ** The record normalisers *)


Lemma get_stripped_nonempty ex k a :
  get_stripped ex k = Ok a -> a <> [] ->
  exists s, dict_lookup ex k = Some (PStr s) /\ a = str_strip s.
Proof.
  unfold get_stripped, dict_get, py_or.
  destruct (dict_lookup ex k) as [v|]; simpl.
  - destruct v as [ |b|z|s|l|l|d]; simpl.
    + empty_strip.
    + destruct b; simpl; [discriminate | empty_strip].
    + destruct (z =? 0)%Z; simpl; [empty_strip | discriminate].
    + destruct s as [|c s]; simpl; [empty_strip|].
      intros [= <-] _. eauto.
    + destruct l; simpl; [empty_strip | discriminate].
    + destruct l; simpl; [empty_strip | discriminate].
    + destruct d; simpl; [empty_strip | discriminate].
  - empty_strip.
Qed.

Lemma call_strip_or_ok v :
  (exists a, call_strip (py_or v (PStr [])) = Ok a) <-> str_or_falsy v = true.
Proof.
  unfold py_or. destruct v as [ |b|z|s|l|l|d]; simpl.
  - split; eauto.
  - destruct b; simpl; split; eauto; try discriminate. intros [a H]. discriminate.
  - destruct (z =? 0)%Z; simpl; split; eauto; try discriminate. intros [a H]. discriminate.
  - destruct s; simpl; split; eauto.
  - destruct l; simpl; split; eauto; try discriminate. intros [a H]. discriminate.
  - destruct l; simpl; split; eauto; try discriminate. intros [a H]. discriminate.
  - destruct d; simpl; split; eauto; try discriminate. intros [a H]. discriminate.
Qed.

Lemma get_stripped_ok ex k :
  (exists a, get_stripped ex k = Ok a) <-> str_or_falsy (dict_get ex k) = true.
Proof. apply call_strip_or_ok. Qed.

Lemma get_stripped_raises ex k e :
  get_stripped ex k = Raise e -> e = AttributeError.
Proof.
  unfold get_stripped. destruct (py_or _ _); simpl; congruence.
Qed.

Import collect_samanantar.



Lemma call_strip_trimmed v a : call_strip v = Ok a -> str_strip a = a.
Proof.
  destruct v; simpl; try discriminate. intros [= <-]. apply strip_idem.
Qed.

(** C4, as stated, at [iter_text]: the record it yields has no [lang]. *)
Lemma C4_iter_text_record_has_no_lang :
  DownloadData.iter_text (of_list [[(lit "text", PStr (lit "x"))]]) None (0, 0%Z, false)
  = GYield (PDict [(lit "text", PStr (lit "x"))]) (1, 0%Z, true)
  /\ dict_lookup [(lit "text", PStr (lit "x"))] (lit "lang") = None
  /\ ~ has_lang_and_text (PDict [(lit "text", PStr (lit "x"))]).
Proof.
  split; [reflexivity|]. split; [reflexivity|].
  intros (d & l & t & [= <-] & L & _). discriminate L.
Qed.

(** C4 (amended): a record emitted by the samanantar [gen_hi], the
    wikipedia [gen] or the indicllm [gen] has a [lang] string and a
    [text] string that is not empty once stripped; a record yielded by
    [iter_text] is [{"text": t}] alone, with [t] stripped and not
    empty. *)
Theorem C4_monolingual_records_have_text (r : pyval) :
  (forall ex,
      gen_hi_body ex = Ok (Some r)
      \/ collect_wikipedia.gen_body ex = Ok (Some r)
      \/ collect_indicllm.gen_body ex = Ok (Some r) ->
      has_lang_and_text r)
  /\ (forall ds limit st st',
         DownloadData.iter_text ds limit st = GYield r st' ->
         exists t, r = PDict [(lit "text", PStr t)] /\ t <> [] /\ str_strip t = t).
Proof.
  split.
  - intros ex [H | [H | H]].
    + unfold gen_hi_body in H.
      destruct (get_stripped ex (lit "tgt")) as [a|e] eqn:E; unfold_res; [|discriminate].
      destruct (nonempty a) eqn:N; [|discriminate]. injection H as <-.
      eexists _, _, a. repeat split; try reflexivity.
      rewrite (call_strip_trimmed _ _ E). apply nonempty_true, N.
    + unfold collect_wikipedia.gen_body in H.
      destruct (get_stripped ex (lit "text")) as [a|e] eqn:E; unfold_res; [|discriminate].
      destruct (nonempty a) eqn:N; [|discriminate]. injection H as <-.
      eexists _, _, a. repeat split; try reflexivity.
      rewrite (call_strip_trimmed _ _ E). apply nonempty_true, N.
    + unfold collect_indicllm.gen_body in H.
      destruct (call_strip _) as [a|e] eqn:E; unfold_res; [|discriminate].
      destruct (nonempty a) eqn:N; [|discriminate]. injection H as <-.
      eexists _, _, a. repeat split; try reflexivity.
      rewrite (call_strip_trimmed _ _ E). apply nonempty_true, N.
  - intros ds limit [[pos n] at_yield] st'.
    assert (P : forall n0, loop_turn (for_each DownloadData.iter_text_body ds) pos n0
                           = GYield r st' ->
                exists t, r = PDict [(lit "text", PStr t)] /\ t <> [] /\ str_strip t = t).
    { intros n0. unfold loop_turn, for_each, DownloadData.iter_text_body.
      destruct (ds pos) as [ex|]; [|discriminate]. unfold_res.
      destruct (DownloadData.normalize_text (PDict ex)) as [t|] eqn:E; simpl; [|discriminate].
      destruct (nonempty t) eqn:N; [|discriminate]. intros [= <- _].
      exists t. split; [reflexivity|]. split; [apply nonempty_true, N|].
      revert E. simpl.
      destruct (DownloadData.str_field ex (lit "text")); [intros [= <-]; apply strip_idem|].
      destruct (DownloadData.str_field ex (lit "content")); [intros [= <-]; apply strip_idem|].
      destruct (DownloadData.str_field ex (lit "tgt")); [intros [= <-]; apply strip_idem|].
      discriminate. }
    unfold DownloadData.iter_text. destruct at_yield; [|apply P].
    destruct (_ && _); [discriminate | apply P].
Qed.

(** C4 at the record [{"tgt": " क "}] for [gen_hi] and [iter_text]. *)
Lemma C4_monolingual_records_have_text_witness :
  has_lang_and_text (PDict [(lit "lang", PStr (lit "hi")); (lit "text", PStr [2325%N])])
  /\ exists t, PDict [(lit "text", PStr [2325%N])] = PDict [(lit "text", PStr t)]
               /\ t <> [] /\ str_strip t = t.
Proof.
  split.
  - apply (proj1 (C4_monolingual_records_have_text _)
             [(lit "tgt", PStr [32; 2325; 32]%N)]).
    left. reflexivity.
  - apply (proj2 (C4_monolingual_records_have_text _)
             (of_list [[(lit "tgt", PStr [32; 2325; 32]%N)]]) (Some 1%Z)
             (0, 0%Z, false) (1, 0%Z, true)).
    reflexivity.
Defined.



(** ** Exceptions in the normalisers *)

(** C1, as stated, at records with a true non-string field: the
    normalisers that call [strip] on the field raise. *)
Lemma C1_non_string_field_raises :
  gen_parallel_body [(lit "src", PInt 5); (lit "tgt", PStr (lit "x"))]
  = Raise AttributeError
  /\ gen_hi_body [(lit "tgt", PList [PStr (lit "x")])] = Raise AttributeError
  /\ collect_wikipedia.gen_body [(lit "text", PDict [(lit "text", PStr (lit "x"))])]
     = Raise AttributeError
  /\ collect_indicllm.gen_body [(lit "content", PBool true)] = Raise AttributeError
  /\ gen_parallel (of_list [[(lit "src", PInt 5); (lit "tgt", PStr (lit "x"))]]) 0
     = GRaise AttributeError 1.
Proof. repeat split. Qed.

Lemma for_each_raises f ds pos e s :
  for_each f ds pos = GRaise e s <->
  exists ex, ds pos = Some ex /\ f ex = Raise e /\ s = S pos.
Proof.
  unfold for_each. destruct (ds pos) as [ex|].
  - destruct (f ex) as [[r|]|e'] eqn:E.
    + split; [discriminate|]. intros (ex' & [= <-] & E' & _). congruence.
    + split; [discriminate|]. intros (ex' & [= <-] & E' & _). congruence.
    + split.
      * intros [= <- <-]. eauto.
      * intros (ex' & [= <-] & E' & ->). congruence.
  - split; [discriminate|]. intros (ex' & E' & _). discriminate.
Qed.

Lemma for_each_skips f ds pos ex :
  ds pos = Some ex -> f ex = Ok None -> for_each f ds pos = GSkip (S pos).
Proof. intros E1 E2. unfold for_each. rewrite E1, E2. reflexivity. Qed.

Lemma py_or_assoc a b c : py_or (py_or a b) c = py_or a (py_or b c).
Proof.
  unfold py_or. destruct (truthy a) eqn:Ta; [rewrite Ta|]; reflexivity.
Qed.

Lemma bind_ok_iff {A B} (r : res A) (k : A -> B) :
  (exists o, (a ← r; mret (k a)) = Ok o) <-> exists a, r = Ok a.
Proof.
  destruct r as [a|e]; unfold_res; split; eauto.
  - intros [o H]. discriminate.
  - intros [a H]. discriminate.
Qed.

(** C1 (amended): the wikilingua generator never raises, whatever the
    record; the samanantar, wikipedia and indicllm generators do not
    raise exactly when the field they strip is a string or a false
    value (missing, [None], zero, empty), and the only exception they
    raise is the missing [strip] attribute; a record for which the body
    answers nothing is skipped. *)
Theorem C1_normalizers_raise_only_on_non_strings (ex : list (str * pyval)) :
  (exists o, collect_wikilingua.gen_body ex = Ok o)
  /\ (forall ds pos e s, collect_wikilingua.gen ds pos <> GRaise e s)
  /\ ((exists o, gen_parallel_body ex = Ok o) <->
      str_or_falsy (dict_get ex (lit "src")) = true
      /\ str_or_falsy (dict_get ex (lit "tgt")) = true)
  /\ ((exists o, gen_hi_body ex = Ok o) <->
      str_or_falsy (dict_get ex (lit "tgt")) = true)
  /\ ((exists o, collect_wikipedia.gen_body ex = Ok o) <->
      str_or_falsy (dict_get ex (lit "text")) = true)
  /\ ((exists o, collect_indicllm.gen_body ex = Ok o) <->
      str_or_falsy (py_or (dict_get ex (lit "text")) (dict_get ex (lit "content"))) = true)
  /\ (forall e, gen_parallel_body ex = Raise e \/ gen_hi_body ex = Raise e
                \/ collect_wikipedia.gen_body ex = Raise e
                \/ collect_indicllm.gen_body ex = Raise e -> e = AttributeError)
  /\ (forall f ds pos, ds pos = Some ex -> f ex = Ok None ->
                       for_each f ds pos = GSkip (S pos)).
Proof.
  split; [eexists; reflexivity|].
  split.
  { intros ds pos e s H. apply for_each_raises in H as (ex' & _ & H & _). discriminate. }
  split.
  { unfold gen_parallel_body. rewrite <- !get_stripped_ok. split.
    - intros [o H]. destruct (get_stripped ex (lit "src")) as [a|]; unfold_res; [|discriminate].
      destruct (get_stripped ex (lit "tgt")) as [b|]; [|discriminate]. eauto.
    - intros [[a ->] [b ->]]. unfold_res. eauto. }
  split.
  { unfold gen_hi_body. rewrite bind_ok_iff. apply get_stripped_ok. }
  split.
  { unfold collect_wikipedia.gen_body. rewrite bind_ok_iff. apply get_stripped_ok. }
  split.
  { unfold collect_indicllm.gen_body. rewrite bind_ok_iff.
    rewrite <- call_strip_or_ok, py_or_assoc. reflexivity. }
  split.
  { intros e [H | [H | [H | H]]].
    - unfold gen_parallel_body in H.
      destruct (get_stripped ex (lit "src")) as [a|e1] eqn:E1; unfold_res.
      + destruct (get_stripped ex (lit "tgt")) as [b|e2] eqn:E2; [discriminate|].
        injection H as <-. exact (get_stripped_raises _ _ _ E2).
      + injection H as <-. exact (get_stripped_raises _ _ _ E1).
    - unfold gen_hi_body in H.
      destruct (get_stripped ex (lit "tgt")) as [a|e1] eqn:E1; unfold_res; [discriminate|].
      injection H as <-. exact (get_stripped_raises _ _ _ E1).
    - unfold collect_wikipedia.gen_body in H.
      destruct (get_stripped ex (lit "text")) as [a|e1] eqn:E1; unfold_res; [discriminate|].
      injection H as <-. exact (get_stripped_raises _ _ _ E1).
    - unfold collect_indicllm.gen_body in H.
      destruct (py_or _ _); simpl in H; unfold_res; congruence. }
  intros f ds pos. apply for_each_skips.
Qed.

(** C1 at a record whose [tgt] is the integer zero: skipped, not raised. *)
Lemma C1_normalizers_raise_only_on_non_strings_witness :
  (exists o, gen_hi_body [(lit "tgt", PInt 0)] = Ok o)
  /\ for_each gen_hi_body (of_list [[(lit "tgt", PInt 0)]]) 0 = GSkip 1.
Proof.
  pose proof (C1_normalizers_raise_only_on_non_strings [(lit "tgt", PInt 0)])
    as (_ & _ & _ & H4 & _ & _ & _ & H8).
  split.
  - apply H4. reflexivity.
  - apply H8; reflexivity.
Defined.

(** ** The source resolver *)
Section ResolverFacts.
Import collect_wikilingua.
Context {H : Type} (load_dataset : str -> str -> loaded H).

Local Abbreviation load_fails := (load_fails load_dataset).

Lemma try_candidates_found cands tried ds :
  (try_candidates load_dataset cands tried).1 = Some ds <->
  exists pre b c post,
    cands = pre ++ (b, c) :: post
    /\ Forall load_fails pre
    /\ load_dataset b c = Loaded ds.
Proof.
  revert tried. induction cands as [|[b c] rest IH]; intros tried; simpl.
  - split; [discriminate|]. intros (pre & b & c & post & E & _). destruct pre; discriminate.
  - destruct (load_dataset b c) as [ds'|e] eqn:L; simpl.
    + split.
      * intros [= ->]. exists [], b, c, rest. auto.
      * intros ([|[b' c'] pre] & b0 & c0 & post & E & F & L0); simpl in E.
        -- injection E as <- <- <-. congruence.
        -- injection E as <- <- ->. inversion F as [|? ? [e He] F']; subst.
           simpl in He. congruence.
    + rewrite IH. split.
      * intros (pre & b0 & c0 & post & -> & F & L0).
        exists ((b, c) :: pre), b0, c0, post. repeat split; [|exact L0].
        constructor; [exists e; exact L | exact F].
      * intros ([|[b' c'] pre] & b0 & c0 & post & E & F & L0); simpl in E.
        -- injection E as <- <- <-. congruence.
        -- injection E as <- <- ->. inversion F; subst. eauto 10.
Qed.

Lemma try_candidates_exhausted cands tried :
  (try_candidates load_dataset cands tried).1 = None <-> Forall load_fails cands.
Proof.
  revert tried. induction cands as [|[b c] rest IH]; intros tried; simpl.
  - split; [constructor | reflexivity].
  - destruct (load_dataset b c) as [ds'|e] eqn:L; simpl.
    + split; [discriminate|]. inversion 1 as [|? ? [e He] F']; subst.
      simpl in He. congruence.
    + rewrite IH. split.
      * intros F. constructor; [exists e; exact L | exact F].
      * inversion 1; assumption.
Qed.

(** C7: the resolver answers the handle of the first candidate, in
    order, that loads; it raises exactly when every candidate fails,
    and the message then lists the three candidates in order, each with
    its own failure reason. *)
Theorem C7_resolver_first_success_or_full_report :
  (forall ds,
      resolve load_dataset = Ok ds <->
      exists pre b c post,
        candidates = pre ++ (b, c) :: post
        /\ Forall load_fails pre
        /\ load_dataset b c = Loaded ds)
  /\ ((exists e, resolve load_dataset = Raise e) <-> Forall load_fails candidates)
  /\ (forall e1 e2 e3,
         load_dataset (lit "wiki_lingua") (lit "hindi") = LoadFailed e1 ->
         load_dataset (lit "wikilingua") (lit "hi") = LoadFailed e2 ->
         load_dataset (lit "wiki_lingua") (lit "hi") = LoadFailed e3 ->
         resolve load_dataset
         = Raise (RuntimeError
                    (lit "Could not load WikiLingua Hindi. Tried:"
                     ++ [10%N] ++ lit "  - wiki_lingua/hindi: " ++ e1
                     ++ [10%N] ++ lit "  - wikilingua/hi: " ++ e2
                     ++ [10%N] ++ lit "  - wiki_lingua/hi: " ++ e3)))
  /\ (forall e1 ds,
         load_dataset (lit "wiki_lingua") (lit "hindi") = LoadFailed e1 ->
         load_dataset (lit "wikilingua") (lit "hi") = Loaded ds ->
         try_candidates load_dataset candidates []
         = (Some ds, [lit "wiki_lingua/hindi: " ++ e1])).
Proof.
  split.
  { intros ds. rewrite <- (try_candidates_found candidates []). unfold resolve.
    destruct (try_candidates load_dataset candidates []) as [[ds'|] tried]; simpl;
      split; congruence. }
  split.
  { rewrite <- (try_candidates_exhausted candidates []). unfold resolve.
    destruct (try_candidates load_dataset candidates []) as [[ds'|] tried]; simpl.
    - split; [intros [e D]; discriminate | discriminate].
    - split; eauto. }
  split.
  { intros e1 e2 e3 L1 L2 L3. unfold resolve. simpl. rewrite L1, L2, L3. simpl.
    reflexivity. }
  intros e1 ds L1 L2. simpl. rewrite L1, L2. reflexivity.
Qed.
End ResolverFacts.

(** C7 on these two providers. *)
Lemma C7_resolver_first_success_or_full_report_witness :
  collect_wikilingua.try_candidates only_wikilingua_hi collect_wikilingua.candidates []
  = (Some 7, [lit "wiki_lingua/hindi: not found"])
  /\ collect_wikilingua.resolve nothing_loads
     = Raise (RuntimeError
                (lit "Could not load WikiLingua Hindi. Tried:"
                 ++ [10%N] ++ lit "  - wiki_lingua/hindi: wiki_lingua?"
                 ++ [10%N] ++ lit "  - wikilingua/hi: wikilingua?"
                 ++ [10%N] ++ lit "  - wiki_lingua/hi: wiki_lingua?")).
Proof.
  split.
  - apply (proj2 (proj2 (proj2 (C7_resolver_first_success_or_full_report only_wikilingua_hi)))
             (lit "not found") 7); reflexivity.
  - apply (proj1 (proj2 (proj2 (C7_resolver_first_success_or_full_report nothing_loads)))
             (lit "wiki_lingua?") (lit "wikilingua?") (lit "wiki_lingua?")); reflexivity.
Defined.

(** ** Bounded streaming *)

Lemma drain_ext {A S} (nx1 nx2 : S -> gstep A S) :
  (forall s, nx1 s = nx2 s) -> forall fuel s, drain nx1 fuel s = drain nx2 fuel s.
Proof.
  intros E fuel. induction fuel as [|k IH]; intros s; simpl; [reflexivity|].
  rewrite E. destruct (nx2 s) as [a s'|s'|s'|e s']; try reflexivity.
  - rewrite IH. reflexivity.
  - apply IH.
Qed.

Lemma take_bounded {A S} (nx : S -> gstep A S) (l : Z) st :
  take nx (Some l) st = bounded (fun n' => (n' >=? l)%Z) nx st.
Proof. destruct st as [[s n] b]. reflexivity. Qed.

Lemma iter_text_bounded ds limit st :
  DownloadData.iter_text ds limit st
  = bounded (fun n' => DownloadData.limit_truthy limit && (n' >=? default 0%Z limit)%Z)
      (for_each DownloadData.iter_text_body ds) st.
Proof. destruct st as [[s n] b]. reflexivity. Qed.

Lemma pulls_needed_zero f raw : pulls_needed f 0 raw = 0.
Proof. destruct raw; reflexivity. Qed.

Lemma normalized_cons f ex raw :
  normalized f (ex :: raw)
  = match f ex with
    | Ok (Some r) => r :: normalized f raw
    | _ => normalized f raw
    end.
Proof. unfold normalized. simpl. destruct (f ex) as [[r|]|e]; reflexivity. Qed.

Section BoundedRun.
Context (f : list (str * pyval) -> res (option pyval)) (ds : source).
Context (cond : bool) (l : Z).

Local Abbreviation brk := (fun n' : Z => cond && (n' >=? l)%Z).
Local Abbreviation machine := (bounded brk (for_each f ds)).

Local Abbreviation budget_at := (budget_at cond l).

Lemma drain_resume fuel pos n :
  brk (n + 1)%Z = false ->
  drain machine fuel (pos, n, true) = drain machine fuel (pos, (n + 1)%Z, false).
Proof.
  intros B. destruct fuel as [|fuel]; [reflexivity|]. simpl. rewrite B. reflexivity.
Qed.

Lemma bounded_drain raw :
  forall budget pos n fuel,
    (forall i, i < length raw -> ds (pos + i) = raw !! i) ->
    Forall (fun ex => exists o, f ex = Ok o) raw ->
    budget_at budget n ->
    match budget with
    | Some k => k <= length (normalized f raw)
    | None => False
    end \/ ds (pos + length raw) = None ->
    length raw < fuel ->
    exists nf,
      drain machine fuel (pos, n, false)
      = Some (within budget (normalized f raw),
              (pos + pulls_within f budget raw, nf, false), None).
Proof.
  induction raw as [|ex raw IH]; intros budget pos n fuel Hpre Hok Hb Hend Hfuel.
  - assert (E : ds pos = None).
    { destruct Hend as [Hk | Hend].
      - destruct budget as [k|]; [|contradiction]. destruct Hb as (_ & Hk1 & _).
        simpl in Hk. lia.
      - rewrite Nat.add_0_r in Hend. exact Hend. }
    destruct fuel as [|fuel]; [simpl in Hfuel; lia|].
    exists n. simpl. unfold loop_turn, for_each. rewrite E.
    destruct budget as [k|]; simpl; rewrite ?Nat.add_0_r; [destruct k|]; reflexivity.
  - assert (E : ds pos = Some ex).
    { specialize (Hpre 0). rewrite Nat.add_0_r in Hpre. apply Hpre. simpl. lia. }
    assert (Hpre' : forall i, i < length raw -> ds (S pos + i) = raw !! i).
    { intros i Hi. specialize (Hpre (S i)). rewrite Nat.add_succ_r in Hpre.
      apply Hpre. simpl. lia. }
    inversion Hok as [|? ? [o Ho] Hok']; subst.
    destruct fuel as [|fuel]; [simpl in Hfuel; lia|]. simpl in Hfuel.
    assert (Hend' : forall b : option nat,
               match b with Some k => k <= length (normalized f raw) | None => False end
               \/ ds (pos + length (ex :: raw)) = None ->
               match b with Some k => k <= length (normalized f raw) | None => False end
               \/ ds (S pos + length raw) = None).
    { intros b [Hk | Hn]; [left; exact Hk | right].
      simpl in Hn. rewrite Nat.add_succ_r in Hn. exact Hn. }
    simpl drain. unfold loop_turn at 1, for_each at 1. rewrite E, Ho.
    rewrite normalized_cons, Ho.
    destruct o as [r|].
    + (* the record is kept and yielded *)
      destruct budget as [k|].
      * destruct Hb as (Hc & Hk1 & Hk).
        destruct k as [|[|k]]; [lia| |].
        -- (* the last one allowed *)
           destruct fuel as [|fuel]; [lia|]. exists (n + 1)%Z. simpl.
           rewrite Hc. simpl.
           replace (n + 1 >=? l)%Z with true by lia.
           rewrite Ho. rewrite pulls_needed_zero.
           replace (pos + 1) with (S pos) by lia. reflexivity.
        -- rewrite drain_resume by (rewrite Hc; simpl; lia).
           destruct (IH (Some (S k)) (S pos) (n + 1)%Z fuel Hpre' Hok') as [nf Hnf].
           ++ simpl. repeat split; [exact Hc | lia | lia].
           ++ apply (Hend' (Some (S k))). destruct Hend as [Hk' | Hn]; [left | right; exact Hn].
              rewrite normalized_cons, Ho in Hk'. simpl in Hk'. lia.
           ++ lia.
           ++ exists nf. rewrite Hnf. simpl. rewrite Ho.
              replace (pos + S (pulls_needed f (S k) raw))
                with (S pos + pulls_needed f (S k) raw) by lia.
              reflexivity.
      * simpl in Hb. rewrite drain_resume by (rewrite Hb; reflexivity).
        destruct (IH None (S pos) (n + 1)%Z fuel Hpre' Hok') as [nf Hnf].
        -- exact Hb.
        -- apply (Hend' None). destruct Hend as [[] | Hn]. right. exact Hn.
        -- lia.
        -- exists nf. rewrite Hnf. simpl.
           replace (pos + S (length raw)) with (S pos + length raw) by lia.
           reflexivity.
    + (* the record is skipped *)
      destruct (IH budget (S pos) n fuel Hpre' Hok' Hb) as [nf Hnf].
      * apply (Hend' budget). destruct Hend as [Hk | Hn]; [left | right; exact Hn].
        rewrite normalized_cons, Ho in Hk. exact Hk.
      * lia.
      * exists nf. rewrite Hnf. destruct budget as [k|]; simpl.
        -- destruct Hb as (_ & Hk1 & _). destruct k as [|k]; [lia|].
           rewrite Ho.
           replace (pos + S (pulls_needed f (S k) raw))
             with (S pos + pulls_needed f (S k) raw) by lia.
           reflexivity.
        -- replace (pos + S (length raw)) with (S pos + length raw) by lia.
           reflexivity.
Qed.
End BoundedRun.

Lemma take_unlimited_drain f ds raw :
  forall pos n b fuel,
    (forall i, i < length raw -> ds (pos + i) = raw !! i) ->
    Forall (fun ex => exists o, f ex = Ok o) raw ->
    ds (pos + length raw) = None ->
    length raw < fuel ->
    exists b',
      drain (take (for_each f ds) None) fuel (pos, n, b)
      = Some (normalized f raw, (pos + length raw, n, b'), None).
Proof.
  induction raw as [|ex raw IH]; intros pos n b fuel Hpre Hok Hend Hfuel;
    (destruct fuel as [|fuel]; [simpl in Hfuel; lia|]).
  - rewrite Nat.add_0_r in *. exists false. simpl. unfold loop_turn, for_each.
    rewrite Hend. reflexivity.
  - assert (E : ds pos = Some ex).
    { specialize (Hpre 0). rewrite Nat.add_0_r in Hpre. apply Hpre. simpl. lia. }
    inversion Hok as [|? ? [o Ho] Hok']; subst.
    simpl in Hfuel, Hend. rewrite Nat.add_succ_r in Hend.
    assert (Hpre' : forall i, i < length raw -> ds (S pos + i) = raw !! i).
    { intros i Hi. specialize (Hpre (S i)). rewrite Nat.add_succ_r in Hpre.
      apply Hpre. simpl. lia. }
    simpl drain. unfold loop_turn at 1, for_each at 1. rewrite E, Ho.
    rewrite normalized_cons, Ho. simpl length. rewrite Nat.add_succ_r.
    destruct o as [r|].
    + destruct (IH (S pos) n true fuel Hpre' Hok' Hend) as [b' Hb']; [lia|].
      exists b'. rewrite Hb'. reflexivity.
    + destruct (IH (S pos) n false fuel Hpre' Hok' Hend) as [b' Hb']; [lia|].
      exists b'. exact Hb'.
Qed.

Lemma pulls_needed_le f k raw : pulls_needed f k raw <= length raw.
Proof.
  revert k. induction raw as [|ex raw IH]; intros k; simpl; [lia|].
  destruct k as [|k]; [lia|]. specialize (IH (match f ex with Ok (Some _) => k | _ => S k end)).
  lia.
Qed.

(** No shorter prefix of the raw records holds [k] records to emit. *)
Lemma pulls_needed_minimal f k raw p :
  p < pulls_needed f k raw -> length (normalized f (firstn p raw)) < k.
Proof.
  revert k p. induction raw as [|ex raw IH]; intros k p; [simpl; lia|].
  destruct k as [|k]; [simpl; lia|]. destruct p as [|p]; [simpl; lia|].
  change (pulls_needed f (S k) (ex :: raw))
    with (S (pulls_needed f (match f ex with Ok (Some _) => k | _ => S k end) raw)).
  change (firstn (S p) (ex :: raw)) with (ex :: firstn p raw).
  intros Hp. apply Nat.succ_lt_mono in Hp. apply IH in Hp.
  rewrite normalized_cons. destruct (f ex) as [[r|]|e]; simpl; lia.
Qed.

(** A record that raises ends the bounded loop, when the count has not
    been reached before it. *)
Lemma bounded_drain_raise f (ds : source) (cond : bool) (l : Z) raw :
  forall (budget : option nat) pos n fuel bad e,
    (forall i, i < length raw -> ds (pos + i) = raw !! i) ->
    Forall (fun ex => exists o, f ex = Ok o) raw ->
    budget_at cond l budget n ->
    match budget with
    | Some k => length (normalized f raw) < k
    | None => True
    end ->
    ds (pos + length raw) = Some bad ->
    f bad = Raise e ->
    length raw < fuel ->
    exists nf,
      drain (bounded (fun n' => cond && (n' >=? l)%Z) (for_each f ds)) fuel (pos, n, false)
      = Some (normalized f raw, (S (pos + length raw), nf, false), Some e).
Proof.
  induction raw as [|ex raw IH]; intros budget pos n fuel bad e Hpre Hok Hb Hlt Hbad He Hfuel;
    (destruct fuel as [|fuel]; [simpl in Hfuel; lia|]).
  - simpl length in *. rewrite Nat.add_0_r in *. exists n. simpl.
    unfold loop_turn, for_each. rewrite Hbad, He. reflexivity.
  - assert (E : ds pos = Some ex).
    { specialize (Hpre 0). rewrite Nat.add_0_r in Hpre. apply Hpre. simpl. lia. }
    assert (Hpre' : forall i, i < length raw -> ds (S pos + i) = raw !! i).
    { intros i Hi. specialize (Hpre (S i)). rewrite Nat.add_succ_r in Hpre.
      apply Hpre. simpl. lia. }
    inversion Hok as [|? ? [o Ho] Hok']; subst.
    rewrite normalized_cons, Ho in Hlt.
    simpl length in Hbad, Hfuel, Hpre |- *. rewrite Nat.add_succ_r in *.
    simpl drain. unfold loop_turn at 1, for_each at 1. rewrite E, Ho.
    rewrite normalized_cons, Ho.
    destruct o as [r|].
    + destruct budget as [k|].
      * destruct Hb as (Hc & Hk1 & Hk). simpl length in Hlt.
        rewrite drain_resume by (rewrite Hc; simpl; lia).
        destruct (IH (Some (k - 1)) (S pos) (n + 1)%Z fuel bad e Hpre' Hok') as [nf Hnf];
          try assumption; try lia.
        -- simpl. repeat split; [exact Hc | lia | lia].
        -- exists nf. rewrite Hnf. reflexivity.
      * simpl in Hb. rewrite drain_resume by (rewrite Hb; reflexivity).
        destruct (IH None (S pos) (n + 1)%Z fuel bad e Hpre' Hok' Hb I Hbad He) as [nf Hnf];
          [lia|].
        exists nf. rewrite Hnf. reflexivity.
    + destruct (IH budget (S pos) n fuel bad e Hpre' Hok' Hb Hlt Hbad He) as [nf Hnf]; [lia|].
      exists nf. exact Hnf.
Qed.

Lemma take_unlimited_drain_raise f (ds : source) raw :
  forall pos n b fuel bad e,
    (forall i, i < length raw -> ds (pos + i) = raw !! i) ->
    Forall (fun ex => exists o, f ex = Ok o) raw ->
    ds (pos + length raw) = Some bad ->
    f bad = Raise e ->
    length raw < fuel ->
    drain (take (for_each f ds) None) fuel (pos, n, b)
    = Some (normalized f raw, (S (pos + length raw), n, false), Some e).
Proof.
  induction raw as [|ex raw IH]; intros pos n b fuel bad e Hpre Hok Hbad He Hfuel;
    (destruct fuel as [|fuel]; [simpl in Hfuel; lia|]).
  - simpl length in *. rewrite Nat.add_0_r in *. simpl. unfold loop_turn, for_each.
    rewrite Hbad, He. reflexivity.
  - assert (E : ds pos = Some ex).
    { specialize (Hpre 0). rewrite Nat.add_0_r in Hpre. apply Hpre. simpl. lia. }
    assert (Hpre' : forall i, i < length raw -> ds (S pos + i) = raw !! i).
    { intros i Hi. specialize (Hpre (S i)). rewrite Nat.add_succ_r in Hpre.
      apply Hpre. simpl. lia. }
    inversion Hok as [|? ? [o Ho] Hok']; subst.
    simpl length in *. rewrite Nat.add_succ_r in *.
    simpl drain. unfold loop_turn at 1, for_each at 1. rewrite E, Ho.
    rewrite normalized_cons, Ho.
    destruct o as [r|]; rewrite (IH (S pos) n _ fuel bad e Hpre' Hok' Hbad He) by lia;
      reflexivity.
Qed.

Lemma iter_text_body_ok ex : exists o, DownloadData.iter_text_body ex = Ok o.
Proof. eexists. reflexivity. Qed.

(** C2, as stated, at the limit 0: [iter_text] takes it for no limit and
    yields every record, and [take] yields one record before its test;
    and at a record that makes the normaliser raise: nothing is
    yielded although the source holds a normalisable record. *)
Lemma C2_limit_zero_is_not_a_bound :
  let raw := [[(lit "tgt", PStr (lit "a"))]; [(lit "tgt", PStr (lit "b"))]] in
  (exists out st,
      drain (DownloadData.iter_text (of_list raw) (Some 0%Z)) 5 (0, 0%Z, false)
      = Some (out, st, None)
      /\ length out = 2
      /\ length out <> Nat.min 0 (length (normalized DownloadData.iter_text_body raw)))
  /\ (exists out st,
         drain (take (gen_hi (of_list raw)) (Some 0%Z)) 5 (0, 0%Z, false)
         = Some (out, st, None)
         /\ length out = 1
         /\ length out <> Nat.min 0 (length (normalized gen_hi_body raw)))
  /\ (exists st,
         drain (take (gen_hi (of_list [[(lit "tgt", PInt 5)]; [(lit "tgt", PStr (lit "a"))]]))
                  (Some 1%Z)) 5 (0, 0%Z, false)
         = Some ([], st, Some AttributeError)).
Proof.
  split; [|split]; [| |eexists; reflexivity];
    eexists _, _; (split; [reflexivity|]); split;
    first [reflexivity | discriminate].
Qed.

(** C2 (amended): with a limit [l >= 1], on a source whose first pulls
    return the records [raw], none of which makes the body raise, and
    which either holds [l] records to emit among them or ends after
    them, [take] over a generator and [iter_text] yield the first [l]
    emitted records, that is [min l (number emitted)] of them, in
    order, and leave the source cursor after the record that completed
    the count: no shorter prefix would do. With no limit, and for
    [iter_text] also with the limit 0, the source is read to its end
    and every record emitted is yielded. When the record after [raw]
    makes the body raise and the count is not reached before it, [take]
    ends with that exception after the records emitted from [raw]. *)
Theorem C2_bounded_iterator_positive_limit
    (f : list (str * pyval) -> res (option pyval)) (ds : source)
    (raw : list (list (str * pyval))) (l : Z) (fuel : nat) :
  (1 <= l)%Z ->
  (forall i, i < length raw -> ds i = raw !! i) ->
  Forall (fun ex => exists o, f ex = Ok o) raw ->
  length raw < fuel ->
  (Z.to_nat l <= length (normalized f raw) \/ ds (length raw) = None ->
   exists nf,
     drain (take (for_each f ds) (Some l)) fuel (0, 0%Z, false)
     = Some (firstn (Z.to_nat l) (normalized f raw),
             (pulls_needed f (Z.to_nat l) raw, nf, false), None))
  /\ (Z.to_nat l <= length (normalized DownloadData.iter_text_body raw)
      \/ ds (length raw) = None ->
      exists nf,
        drain (DownloadData.iter_text ds (Some l)) fuel (0, 0%Z, false)
        = Some (firstn (Z.to_nat l) (normalized DownloadData.iter_text_body raw),
                (pulls_needed DownloadData.iter_text_body (Z.to_nat l) raw, nf, false),
                None))
  /\ (ds (length raw) = None ->
      (exists b,
          drain (take (for_each f ds) None) fuel (0, 0%Z, false)
          = Some (normalized f raw, (length raw, 0%Z, b), None))
      /\ (forall limit, limit = None \/ limit = Some 0%Z ->
          exists nf,
            drain (DownloadData.iter_text ds limit) fuel (0, 0%Z, false)
            = Some (normalized DownloadData.iter_text_body raw,
                    (length raw, nf, false), None)))
  /\ length (firstn (Z.to_nat l) (normalized f raw))
     = Nat.min (Z.to_nat l) (length (normalized f raw))
  /\ (forall p, p < pulls_needed f (Z.to_nat l) raw ->
                length (normalized f (firstn p raw)) < Z.to_nat l)
  /\ pulls_needed f (Z.to_nat l) raw <= length raw
  /\ (forall bad e,
         ds (length raw) = Some bad ->
         f bad = Raise e ->
         (length (normalized f raw) < Z.to_nat l ->
          exists nf,
            drain (take (for_each f ds) (Some l)) fuel (0, 0%Z, false)
            = Some (normalized f raw, (S (length raw), nf, false), Some e))
         /\ drain (take (for_each f ds) None) fuel (0, 0%Z, false)
            = Some (normalized f raw, (S (length raw), 0%Z, false), Some e)).
Proof.
  intros Hl Hpre Hok Hfuel.
  assert (Hb : budget_at true l (Some (Z.to_nat l)) 0).
  { simpl. repeat split; lia. }
  assert (Hokt : Forall (fun ex => exists o, DownloadData.iter_text_body ex = Ok o) raw).
  { apply Forall_forall. intros ex _. apply iter_text_body_ok. }
  split; [|split; [|split; [|split; [|split; [|split]]]]].
  - intros Hend.
    destruct (bounded_drain f ds true l raw (Some (Z.to_nat l)) 0 0%Z fuel Hpre Hok Hb Hend Hfuel)
      as [nf Hnf].
    exists nf. erewrite drain_ext; [exact Hnf | intros st; apply take_bounded].
  - intros Hend.
    destruct (bounded_drain DownloadData.iter_text_body ds true l raw (Some (Z.to_nat l))
                0 0%Z fuel Hpre Hokt Hb Hend Hfuel) as [nf Hnf].
    exists nf. erewrite drain_ext; [exact Hnf|]. intros st. rewrite iter_text_bounded.
    destruct st as [[s n] b]. simpl. replace (l =? 0)%Z with false by lia. reflexivity.
  - intros Hend. split.
    + destruct (take_unlimited_drain f ds raw 0 0%Z false fuel Hpre Hok Hend Hfuel) as [b Hb'].
      exists b. exact Hb'.
    + intros limit Hlimit.
      destruct (bounded_drain DownloadData.iter_text_body ds false 0%Z raw None
                  0 0%Z fuel Hpre Hokt eq_refl (or_intror Hend) Hfuel) as [nf Hnf].
      exists nf. erewrite drain_ext; [exact Hnf|]. intros st.
      rewrite iter_text_bounded. destruct Hlimit as [-> | ->]; reflexivity.
  - apply length_take.
  - intros p. apply pulls_needed_minimal.
  - apply pulls_needed_le.
  - intros bad e Hbad He. split.
    + intros Hlt.
      destruct (bounded_drain_raise f ds true l raw (Some (Z.to_nat l)) 0 0%Z fuel bad e
                  Hpre Hok Hb Hlt Hbad He Hfuel) as [nf Hnf].
      exists nf. erewrite drain_ext; [exact Hnf | intros st; apply take_bounded].
    + exact (take_unlimited_drain_raise f ds raw 0 0%Z false fuel bad e
               Hpre Hok Hbad He Hfuel).
Qed.

(** C2 with the limit 3 on an unbounded source: three records are
    yielded and five raw records pulled. *)
Lemma C2_bounded_iterator_positive_limit_witness :
  exists nf,
    drain (take (gen_hi alternating) (Some 3%Z)) 6 (0, 0%Z, false)
    = Some ([PDict [(lit "lang", PStr (lit "hi")); (lit "text", PStr (lit "a"))];
             PDict [(lit "lang", PStr (lit "hi")); (lit "text", PStr (lit "a"))];
             PDict [(lit "lang", PStr (lit "hi")); (lit "text", PStr (lit "a"))]],
            (5, nf, false), None).
Proof.
  apply (proj1 (C2_bounded_iterator_positive_limit gen_hi_body alternating
                  [[(lit "tgt", PStr (lit "a"))]; []; [(lit "tgt", PStr (lit "a"))]; [];
                   [(lit "tgt", PStr (lit "a"))]]
                  3%Z 6 ltac:(lia)
                  ltac:(intros i Hi; do 5 (destruct i as [|i]; [reflexivity|]); simpl in Hi; lia)
                  ltac:(repeat constructor; eexists; reflexivity)
                  ltac:(simpl; lia))).
  left. vm_compute. lia.
Defined.

(** ** The file system actions *)

(** [mkdir] only adds entries. *)
Lemma mkdir_from_keeps rest :
  forall base (fs fs' : gmap (list (list N)) node) r q v,
    mkdir_from base rest fs = (fs', r) -> fs !! q = Some v -> fs' !! q = Some v.
Proof.
  induction rest as [|c rest IH]; intros base fs fs' r q v; simpl.
  - unfold_io. intros [= <- _]. auto.
  - destruct (fs !! (base ++ [c])) as [[|txt]|] eqn:E.
    + apply IH.
    + intros [= <- _]. auto.
    + intros Hrun Hq. eapply IH; [exact Hrun|].
      rewrite lookup_insert_ne; [exact Hq|]. congruence.
Qed.

(** [mkdir] leaves longer paths alone. *)
Lemma mkdir_from_above rest :
  forall base (fs fs' : gmap (list (list N)) node) r q,
    mkdir_from base rest fs = (fs', r) ->
    length base + length rest < length q -> fs' !! q = fs !! q.
Proof.
  induction rest as [|c rest IH]; intros base fs fs' r q; simpl.
  - unfold_io. intros [= <- _]. auto.
  - assert (L : length (base ++ [c]) + length rest = length base + S (length rest)).
    { rewrite length_app. simpl. lia. }
    destruct (fs !! (base ++ [c])) as [[|txt]|] eqn:E.
    + intros Hrun Hq. eapply IH; [exact Hrun | lia].
    + intros [= <- _]. auto.
    + intros Hrun Hq. erewrite IH; [|exact Hrun | lia].
      apply lookup_insert_ne. intros <-. rewrite length_app in Hq. simpl in Hq. lia.
Qed.

(** With no regular file in the way, [mkdir] succeeds and every
    directory on the way exists afterwards. *)
Lemma mkdir_from_ok rest :
  forall base (fs : gmap (list (list N)) node),
    (forall i txt, 1 <= i <= length rest ->
                   fs !! (base ++ firstn i rest) <> Some (File txt)) ->
    exists fs',
      mkdir_from base rest fs = (fs', Ok ())
      /\ forall i, 1 <= i <= length rest -> fs' !! (base ++ firstn i rest) = Some Dir.
Proof.
  induction rest as [|c rest IH]; intros base fs Hfree; simpl.
  - exists fs. split; [reflexivity|]. simpl. intros i Hi. lia.
  - assert (Hshift : forall i, (base ++ [c]) ++ firstn i rest = base ++ firstn (S i) (c :: rest)).
    { intros i. rewrite <- app_assoc. reflexivity. }
    assert (Hdirs : forall fs1 fs',
               mkdir_from (base ++ [c]) rest fs1 = (fs', Ok ()) ->
               fs1 !! (base ++ [c]) = Some Dir ->
               (forall i, 1 <= i <= length rest ->
                          fs' !! ((base ++ [c]) ++ firstn i rest) = Some Dir) ->
               forall i, 1 <= i <= S (length rest) ->
                         fs' !! (base ++ firstn i (c :: rest)) = Some Dir).
    { intros fs1 fs' Hrun Hp Hrec [|[|i]] Hi; [lia| |].
      - simpl. eapply mkdir_from_keeps; [exact Hrun | exact Hp].
      - rewrite <- Hshift. apply Hrec. lia. }
    destruct (fs !! (base ++ [c])) as [[|txt]|] eqn:E.
    + destruct (IH (base ++ [c]) fs) as (fs' & Hrun & Hrec).
      { intros i txt Hi. rewrite Hshift. apply Hfree. simpl. lia. }
      exists fs'. split; [exact Hrun|]. exact (Hdirs fs fs' Hrun E Hrec).
    + exfalso. apply (Hfree 1 txt); [simpl; lia | exact E].
    + destruct (IH (base ++ [c]) (<[base ++ [c] := Dir]> fs)) as (fs' & Hrun & Hrec).
      { intros i txt Hi. rewrite lookup_insert_ne.
        - rewrite Hshift. apply Hfree. simpl. lia.
        - intros Heq. apply (f_equal length) in Heq.
          rewrite !length_app, length_take in Heq. simpl in Heq. lia. }
      exists fs'. split; [exact Hrun|].
      apply (Hdirs _ fs' Hrun); [apply lookup_insert_eq | exact Hrec].
Qed.

Lemma utf8_encodable_line s : utf8_encodable (s ++ [10%N]) = utf8_encodable s.
Proof.
  unfold utf8_encodable. rewrite forallb_app. simpl. apply andb_true_r.
Qed.

(** Writing a record that can be written appends its line. *)
Lemma write_record_ok (p : list (list N)) (rec : pyval) (fs : gmap (list (list N)) node) :
  writable rec = true ->
  write_record p rec fs
  = (alter (fun n => match n with
                     | File c => File (c ++ json_dumps rec ++ [10%N])
                     | Dir => Dir
                     end) p fs, Ok ()).
Proof.
  unfold writable. intros [D E]%andb_true_iff.
  unfold write_record, dumps, io_of_res, f_write. unfold_io.
  rewrite D, utf8_encodable_line, E. reflexivity.
Qed.

(** Writing a record, whatever comes of it, touches the open file only. *)
Lemma write_record_keeps (p : list (list N)) (rec : pyval)
    (fs fs' : gmap (list (list N)) node)
    (r : res unit) (q : list (list N)) :
  write_record p rec fs = (fs', r) -> q <> p -> fs' !! q = fs !! q.
Proof.
  unfold write_record, dumps, io_of_res, f_write. unfold_io. intros H Hq.
  destruct (dumpable rec); [|injection H as <- _; reflexivity].
  destruct (utf8_encodable _); injection H as <- _; [|reflexivity].
  apply lookup_alter_ne. congruence.
Qed.

(** The loop of writes appends the lines of records that can be
    written, in order, to the open file. *)
Lemma for_writes (p : list (list N)) (records : list pyval) :
  forall fs : gmap (list (list N)) node,
    Forall (fun rec => writable rec = true) records ->
    exists fs',
      for_ records (write_record p) fs = (fs', Ok ())
      /\ (forall txt, fs !! p = Some (File txt) ->
                      fs' !! p = Some (File (txt ++ jsonl_text records)))
      /\ (forall q, q <> p -> fs' !! q = fs !! q).
Proof.
  induction records as [|rec records IH]; intros fs Hw; simpl.
  - exists fs. unfold_io. split; [reflexivity|]. split; [|reflexivity].
    intros txt E. unfold jsonl_text. simpl. rewrite app_nil_r. exact E.
  - inversion Hw as [|? ? Hrec Hrest]; subst.
    unfold mbind, io_bind. rewrite (write_record_ok p rec fs Hrec).
    destruct (IH (alter (fun n => match n with
                                  | File c => File (c ++ json_dumps rec ++ [10%N])
                                  | Dir => Dir
                                  end) p fs) Hrest)
      as (fs' & Hrun & Hp & Hq).
    exists fs'. split; [exact Hrun|]. split.
    + intros txt E. unfold jsonl_text. simpl. rewrite app_assoc. apply Hp.
      rewrite lookup_alter_eq, E. reflexivity.
    + intros q Hne. rewrite Hq by exact Hne. apply lookup_alter_ne. congruence.
Qed.

(** The loop of writes, whatever comes of it, touches the open file
    only. *)
Lemma writes_keep (p : list (list N)) (records : list pyval) :
  forall (fs fs' : gmap (list (list N)) node) (r : res unit) (q : list (list N)),
    for_ records (write_record p) fs = (fs', r) -> q <> p -> fs' !! q = fs !! q.
Proof.
  induction records as [|rec records IH]; intros fs fs' r q; simpl.
  - unfold_io. intros [= <- _] _. reflexivity.
  - unfold mbind, io_bind. destruct (write_record p rec fs) as [fs1 [[]|e]] eqn:W.
    + intros H Hq. rewrite (IH _ _ _ _ H Hq). exact (write_record_keeps _ _ _ _ _ _ W Hq).
    + intros [= <- _] Hq. exact (write_record_keeps _ _ _ _ _ _ W Hq).
Qed.


(** [mkdir] then [open], on a path whose proper prefixes hold no regular
    file and which is not itself a directory: the directories exist and
    the file is empty. *)
Lemma mkdir_then_open (fs : gmap (list (list N)) node) (p : list (list N)) :
  p <> [] ->
  (forall i txt, 1 <= i < length p -> fs !! firstn i p <> Some (File txt)) ->
  fs !! p <> Some Dir ->
  exists fs1 fs2,
    mkdir_parents (parent p) fs = (fs1, Ok ())
    /\ open_w p fs1 = (fs2, Ok ())
    /\ fs2 !! p = Some (File [])
    /\ forall i, 1 <= i < length p -> fs2 !! firstn i p = Some Dir.
Proof.
  intros Hne Hfree Hnodir.
  assert (Hlen : 1 <= length p) by (destruct p; [congruence | simpl; lia]).
  assert (Hpar : parent p = firstn (length p - 1) p).
  { unfold parent. rewrite removelast_firstn_len. f_equal. lia. }
  assert (Hparlen : length (parent p) = length p - 1).
  { rewrite Hpar, length_take. lia. }
  assert (Hpre : forall i, i <= length p - 1 -> firstn i (parent p) = firstn i p).
  { intros i Hi. rewrite Hpar, take_take. f_equal. lia. }
  destruct (mkdir_from_ok (parent p) [] fs) as (fs1 & Hmk & Hdirs).
  { intros i txt Hi. simpl. rewrite Hpre by lia. apply Hfree. lia. }
  assert (Hp1 : fs1 !! p = fs !! p).
  { eapply mkdir_from_above; [exact Hmk|]. simpl. lia. }
  assert (Hdirs1 : forall i, 1 <= i < length p -> fs1 !! firstn i p = Some Dir).
  { intros i Hi. rewrite <- Hpre by lia. apply (Hdirs i). lia. }
  exists fs1, (<[p := File []]> fs1). split; [exact Hmk|]. split.
  - unfold open_w.
    assert (D1 : is_dir fs1 p = false).
    { unfold is_dir. destruct p as [|c p']; [congruence|]. rewrite Hp1.
      destruct (fs !! (c :: p')) as [[|txt]|]; congruence. }
    assert (D2 : is_dir fs1 (parent p) = true).
    { unfold is_dir. destruct (parent p) as [|c q] eqn:E; [reflexivity|].
      rewrite Hpar, Hdirs1; [reflexivity|]. simpl in Hparlen. lia. }
    rewrite D1, D2. reflexivity.
  - split; [apply lookup_insert_eq|].
    intros i Hi. rewrite lookup_insert_ne; [apply Hdirs1, Hi|].
    intros Heq. apply (f_equal length) in Heq. rewrite length_take in Heq. lia.
Qed.

(** ** The JSON text of a record *)













(** ** The writer *)

Lemma download_write_jsonl_run (fs : gmap (list (list N)) node) (p : list (list N))
    (records : list pyval) :
  p <> [] ->
  (forall i txt, 1 <= i < length p -> fs !! firstn i p <> Some (File txt)) ->
  fs !! p <> Some Dir ->
  Forall (fun rec => writable rec = true) records ->
  exists fs',
    DownloadData.write_jsonl p records fs = (fs', Ok ())
    /\ fs' !! p = Some (File (jsonl_text records))
    /\ forall i, 1 <= i < length p -> fs' !! firstn i p = Some Dir.
Proof.
  intros Hne Hfree Hnodir Hw.
  destruct (mkdir_then_open fs p Hne Hfree Hnodir) as (fs1 & fs2 & Hmk & Hop & Hfile & Hdirs).
  destruct (for_writes p records fs2 Hw) as (fs' & Hrun & Hp & Hq).
  exists fs'. unfold DownloadData.write_jsonl. unfold_io. rewrite Hmk, Hop.
  split; [exact Hrun|]. split; [exact (Hp [] Hfile)|].
  intros i Hi. rewrite Hq; [apply Hdirs, Hi|].
  intros Heq. apply (f_equal length) in Heq. rewrite length_take in Heq. lia.
Qed.

Lemma collect_write_jsonl_run (fs : gmap (list (list N)) node) (p : list (list N))
    (records : list pyval) :
  p <> [] ->
  (forall i txt, 1 <= i < length p -> fs !! firstn i p <> Some (File txt)) ->
  fs !! p <> Some Dir ->
  (starts_with RAW_DIR p = true -> Forall (fun rec => writable rec = true) records) ->
  exists fs',
    CollectRaw.write_jsonl p records fs
    = (fs', if starts_with RAW_DIR p then Ok () else Raise ValueError)
    /\ fs' !! p = Some (File (if starts_with RAW_DIR p then jsonl_text records else []))
    /\ forall i, 1 <= i < length p -> fs' !! firstn i p = Some Dir.
Proof.
  intros Hne Hfree Hnodir Hw.
  destruct (mkdir_then_open fs p Hne Hfree Hnodir) as (fs1 & fs2 & Hmk & Hop & Hfile & Hdirs).
  unfold CollectRaw.write_jsonl. unfold_io. rewrite Hmk, Hop.
  destruct (starts_with RAW_DIR p).
  - destruct (for_writes p records fs2 (Hw eq_refl)) as (fs' & Hrun & Hp & Hq).
    exists fs'. split; [exact Hrun|]. split; [exact (Hp [] Hfile)|].
    intros i Hi. rewrite Hq; [apply Hdirs, Hi|].
    intros Heq. apply (f_equal length) in Heq. rewrite length_take in Heq. lia.
  - exists fs2. auto.
Qed.




(** C9: writing no record, on a path whose proper prefixes hold no
    regular file and which is not a directory, makes every missing
    parent directory and leaves an empty file at the path, whatever
    was there before. *)
Theorem C9_empty_write_leaves_empty_file
    (fs : gmap (list (list N)) node) (p : list (list N)) :
  p <> [] ->
  (forall i txt, 1 <= i < length p -> fs !! firstn i p <> Some (File txt)) ->
  fs !! p <> Some Dir ->
  (exists fs',
      DownloadData.write_jsonl p [] fs = (fs', Ok ())
      /\ fs' !! p = Some (File [])
      /\ forall i, 1 <= i < length p -> fs' !! firstn i p = Some Dir)
  /\ (exists fs',
         CollectRaw.write_jsonl p [] fs
         = (fs', if starts_with RAW_DIR p then Ok () else Raise ValueError)
         /\ fs' !! p = Some (File [])
         /\ forall i, 1 <= i < length p -> fs' !! firstn i p = Some Dir).
Proof.
  intros Hne Hfree Hnodir. split.
  - exact (download_write_jsonl_run fs p [] Hne Hfree Hnodir ltac:(constructor)).
  - destruct (collect_write_jsonl_run fs p [] Hne Hfree Hnodir ltac:(constructor))
      as (fs' & H1 & H2 & H3).
    exists fs'. split; [exact H1|]. split; [|exact H3].
    rewrite H2. destruct (starts_with RAW_DIR p); reflexivity.
Qed.

(** C9 where a file is left from an earlier run, and in an empty file
    system. *)
Lemma C9_empty_write_leaves_empty_file_witness :
  (exists fs',
      DownloadData.write_jsonl wiki_hi_path [] after_a_run = (fs', Ok ())
      /\ fs' !! wiki_hi_path = Some (File [])
      /\ forall i, 1 <= i < length wiki_hi_path -> fs' !! firstn i wiki_hi_path = Some Dir)
  /\ (exists fs',
         CollectRaw.write_jsonl wiki_path [] ∅
         = (fs', if starts_with RAW_DIR wiki_path then Ok () else Raise ValueError)
         /\ fs' !! wiki_path = Some (File [])
         /\ forall i, 1 <= i < length wiki_path -> fs' !! firstn i wiki_path = Some Dir).
Proof.
  split.
  - apply (proj1 (C9_empty_write_leaves_empty_file after_a_run wiki_hi_path
                    ltac:(discriminate) ltac:(free_prefixes) ltac:(vm_compute; discriminate))).
  - apply (proj2 (C9_empty_write_leaves_empty_file ∅ wiki_path
                    ltac:(discriminate) ltac:(free_prefixes) ltac:(vm_compute; discriminate))).
Defined.

(** * Further properties of the code *)

(** ** [take] over any generator *)

Lemma drain_take_unlimited {A T} (nx : T -> gstep A T) fuel :
  forall s n b,
    drain (take nx None) fuel (s, n, b)
    = (fun tr : list A * T * option exn =>
         let '(out, s', e) := tr in (out, (s', n, false), e)) <$> drain nx fuel s.
Proof.
  induction fuel as [|fuel IH]; intros s n b; [reflexivity|].
  simpl. unfold loop_turn. destruct (nx s) as [a s'|s'|s'|e s']; try reflexivity.
  - rewrite IH. destruct (drain nx fuel s') as [[[out s''] e]|]; reflexivity.
  - apply IH.
Qed.

(** X1: with no limit, [take] yields what the generator under it
    yields, ends with the same exception if any, and leaves that
    generator in the same state. *)
Theorem X1_take_without_limit_is_transparent {A T} (nx : T -> gstep A T)
    (fuel : nat) (s : T) :
  drain (take nx None) fuel (s, 0%Z, false)
  = (fun tr : list A * T * option exn =>
       let '(out, s', e) := tr in (out, (s', 0%Z, false), e)) <$> drain nx fuel s.
Proof. apply drain_take_unlimited. Qed.

Lemma take_bound_from {A T} (nx : T -> gstep A T) (l : Z) fuel :
  forall s n b out st e,
    drain (take nx (Some l)) fuel (s, n, b) = Some (out, st, e) ->
    (Z.of_nat (length out) <= if b then Z.max 0 (l - n - 1) else Z.max 1 (l - n))%Z.
Proof.
  induction fuel as [|fuel IH]; intros s n b out st e; [discriminate|].
  assert (Hturn : forall m,
             match loop_turn nx s m with
             | GYield a s' =>
                 match drain (take nx (Some l)) fuel s' with
                 | Some (out, s'', e) => Some (a :: out, s'', e)
                 | None => None
                 end
             | GSkip s' => drain (take nx (Some l)) fuel s'
             | GStop s' => Some ([], s', None)
             | GRaise e s' => Some ([], s', Some e)
             end = Some (out, st, e) ->
             (Z.of_nat (length out) <= Z.max 1 (l - m))%Z).
  { intros m. unfold loop_turn. destruct (nx s) as [a s'|s'|s'|e' s'].
    - destruct (drain (take nx (Some l)) fuel (s', m, true)) as [[[out' s''] e'']|] eqn:D;
        [|discriminate].
      intros [= <- <- <-]. apply IH in D. simpl length. lia.
    - intros D. apply IH in D. exact D.
    - intros [= <- <- <-]. simpl. lia.
    - intros [= <- <- <-]. simpl. lia. }
  simpl. destruct b.
  - destruct (n + 1 >=? l)%Z eqn:B.
    + intros [= <- <- <-]. simpl. lia.
    + intros D. apply Hturn in D. lia.
  - apply Hturn.
Qed.

(** X2: whatever the generator under it, [take] with a limit yields at
    most [max(1, limit)] records. *)
Theorem X2_take_yields_at_most_the_limit {A T} (nx : T -> gstep A T) (l : Z)
    (fuel : nat) (s : T) out st e :
  drain (take nx (Some l)) fuel (s, 0%Z, false) = Some (out, st, e) ->
  (Z.of_nat (length out) <= Z.max 1 l)%Z.
Proof.
  intros D. apply take_bound_from in D. rewrite Z.sub_0_r in D. exact D.
Qed.

(** X2 with the limit 2 on the unbounded source [alternating]. *)
Lemma X2_take_yields_at_most_the_limit_witness :
  drain (take (gen_hi alternating) (Some 2%Z)) 5 (0, 0%Z, false)
  = Some ([PDict [(lit "lang", PStr (lit "hi")); (lit "text", PStr (lit "a"))];
           PDict [(lit "lang", PStr (lit "hi")); (lit "text", PStr (lit "a"))]],
          (3, 2%Z, false), None)
  /\ (Z.of_nat 2 <= Z.max 1 2)%Z.
Proof.
  split; [reflexivity|].
  exact (X2_take_yields_at_most_the_limit (gen_hi alternating) 2 5 0
           [PDict [(lit "lang", PStr (lit "hi")); (lit "text", PStr (lit "a"))];
            PDict [(lit "lang", PStr (lit "hi")); (lit "text", PStr (lit "a"))]]
           (3, 2%Z, false) None eq_refl).
Defined.

Lemma take_prefix_from {A T} (nx : T -> gstep A T) (limit : option Z) fuel :
  forall s n b out st e,
    drain (take nx limit) fuel (s, n, b) = Some (out, st, e) ->
    out `prefix_of` yielded nx fuel s.
Proof.
  induction fuel as [|fuel IH]; intros s n b out st e; [discriminate|].
  assert (Hturn : forall m,
             match loop_turn nx s m with
             | GYield a s1 =>
                 match drain (take nx limit) fuel s1 with
                 | Some (out, s'', e) => Some (a :: out, s'', e)
                 | None => None
                 end
             | GSkip s1 => drain (take nx limit) fuel s1
             | GStop s1 => Some ([], s1, None)
             | GRaise e s1 => Some ([], s1, Some e)
             end = Some (out, st, e) ->
             out `prefix_of` yielded nx (S fuel) s).
  { intros m. simpl. unfold loop_turn. destruct (nx s) as [a s1|s1|s1|e1 s1].
    - destruct (drain (take nx limit) fuel (s1, m, true)) as [[[o1 s2] e2]|] eqn:D;
        [|discriminate].
      intros [= <- <- <-]. apply prefix_cons. eapply IH; eassumption.
    - intros D. eapply IH; eassumption.
    - intros [= <- <- <-]. apply prefix_nil.
    - intros [= <- <- <-]. apply prefix_nil. }
  intros D. simpl in D. destruct limit as [l|].
  - destruct b.
    + destruct (n + 1 >=? l)%Z.
      * injection D as <- <- <-. apply prefix_nil.
      * eapply Hturn; eassumption.
    + eapply Hturn; eassumption.
  - eapply Hturn; eassumption.
Qed.

(** X3: what a finished run of [take] has yielded is a prefix, in
    order, of what the generator under it yields in as many steps when
    run alone, be that generator bounded or not. *)
Theorem X3_take_yields_a_prefix {A T} (nx : T -> gstep A T) (limit : option Z)
    (fuel : nat) (s : T) out st e :
  drain (take nx limit) fuel (s, 0%Z, false) = Some (out, st, e) ->
  out `prefix_of` yielded nx fuel s.
Proof. apply take_prefix_from. Qed.

(** X3 with the limit 2 on the unbounded source [alternating]. *)
Lemma X3_take_yields_a_prefix_witness :
  drain (take (gen_hi alternating) (Some 2%Z)) 5 (0, 0%Z, false)
  = Some ([PDict [(lit "lang", PStr (lit "hi")); (lit "text", PStr (lit "a"))];
           PDict [(lit "lang", PStr (lit "hi")); (lit "text", PStr (lit "a"))]],
          (3, 2%Z, false), None)
  /\ [PDict [(lit "lang", PStr (lit "hi")); (lit "text", PStr (lit "a"))];
      PDict [(lit "lang", PStr (lit "hi")); (lit "text", PStr (lit "a"))]]
       `prefix_of` yielded (gen_hi alternating) 5 0.
Proof.
  split; [reflexivity|].
  exact (X3_take_yields_a_prefix (gen_hi alternating) (Some 2%Z) 5 0 _
           (3, 2%Z, false) None eq_refl).
Defined.

Lemma take_small_limit_from {A T} (nx : T -> gstep A T) (l : Z) fuel :
  (l <= 1)%Z ->
  forall s n b, (0 <= n)%Z ->
    drain (take nx (Some l)) fuel (s, n, b) = drain (take nx (Some 1%Z)) fuel (s, n, b).
Proof.
  intros Hl. induction fuel as [|fuel IH]; intros s n b Hn; [reflexivity|].
  simpl. destruct b.
  - replace (n + 1 >=? l)%Z with true by lia.
    replace (n + 1 >=? 1)%Z with true by lia. reflexivity.
  - unfold loop_turn. destruct (nx s) as [a s'|s'|s'|e s']; try reflexivity.
    + rewrite IH by exact Hn. reflexivity.
    + apply IH, Hn.
Qed.

(** X4: a limit of zero or below makes [take] behave as the limit 1
    does: the test comes after the first yield. *)
Theorem X4_take_limit_below_one_acts_as_one {A T} (nx : T -> gstep A T) (l : Z)
    (fuel : nat) (s : T) :
  (l <= 1)%Z ->
  drain (take nx (Some l)) fuel (s, 0%Z, false)
  = drain (take nx (Some 1%Z)) fuel (s, 0%Z, false).
Proof. intros Hl. apply take_small_limit_from; [exact Hl | lia]. Qed.

(** X4 with the limit -3 on the unbounded source [alternating]. *)
Lemma X4_take_limit_below_one_acts_as_one_witness :
  drain (take (gen_hi alternating) (Some (-3)%Z)) 4 (0, 0%Z, false)
  = drain (take (gen_hi alternating) (Some 1%Z)) 4 (0, 0%Z, false).
Proof.
  apply (X4_take_limit_below_one_acts_as_one (gen_hi alternating) (-3) 4 0). lia.
Defined.

(** ** [iter_text] *)

Lemma iter_text_negative_from ds (l : Z) fuel :
  (l < 0)%Z ->
  forall pos n b, (0 <= n)%Z ->
    drain (DownloadData.iter_text ds (Some l)) fuel (pos, n, b)
    = drain (DownloadData.iter_text ds (Some 1%Z)) fuel (pos, n, b).
Proof.
  intros Hl. induction fuel as [|fuel IH]; intros pos n b Hn; [reflexivity|].
  simpl. destruct b.
  - replace (l =? 0)%Z with false by lia.
    replace (n + 1 >=? l)%Z with true by lia.
    replace (n + 1 >=? 1)%Z with true by lia. reflexivity.
  - unfold loop_turn. destruct (for_each _ ds pos) as [a s'|s'|s'|e s']; try reflexivity.
    + rewrite IH by exact Hn. reflexivity.
    + apply IH, Hn.
Qed.

(** X5: a negative limit is a true value that every count reaches, so
    [iter_text] then stops after its first record, as with the limit
    1. *)
Theorem X5_iter_text_negative_limit_acts_as_one (ds : source) (l : Z) (fuel : nat) :
  (l < 0)%Z ->
  drain (DownloadData.iter_text ds (Some l)) fuel (0, 0%Z, false)
  = drain (DownloadData.iter_text ds (Some 1%Z)) fuel (0, 0%Z, false).
Proof. intros Hl. apply iter_text_negative_from; [exact Hl | lia]. Qed.

(** X5 with the limit -1 on the unbounded source [alternating]. *)
Lemma X5_iter_text_negative_limit_acts_as_one_witness :
  drain (DownloadData.iter_text alternating (Some (-1)%Z)) 4 (0, 0%Z, false)
  = drain (DownloadData.iter_text alternating (Some 1%Z)) 4 (0, 0%Z, false).
Proof.
  apply (X5_iter_text_negative_limit_acts_as_one alternating (-1) 4). lia.
Defined.

Lemma iter_text_step_never_raises ds limit st e s' :
  DownloadData.iter_text ds limit st <> GRaise e s'.
Proof.
  destruct st as [[pos n] b]. unfold DownloadData.iter_text.
  assert (P : forall m, loop_turn (for_each DownloadData.iter_text_body ds) pos m
                        <> GRaise e s').
  { intros m. unfold loop_turn, for_each, DownloadData.iter_text_body. unfold_res.
    destruct (ds pos) as [ex|]; [|discriminate].
    destruct (opt_truthy _); discriminate. }
  destruct b; [|apply P]. destruct (_ && _); [discriminate | apply P].
Qed.

(** X6: [iter_text] never raises, whatever the shapes of the fields of
    the records: a run of it ends without an exception. *)
Theorem X6_iter_text_never_raises (ds : source) (limit : option Z) (fuel : nat)
    st out st' e :
  drain (DownloadData.iter_text ds limit) fuel st = Some (out, st', e) -> e = None.
Proof.
  revert st out. induction fuel as [|fuel IH]; intros st out; [discriminate|].
  simpl. destruct (DownloadData.iter_text ds limit st) as [a s1|s1|s1|e1 s1] eqn:E.
  - destruct (drain _ fuel s1) as [[[o1 s2] e2]|] eqn:D; [|discriminate].
    intros [= <- <- <-]. eapply IH. exact D.
  - apply IH.
  - intros [= <- <- <-]. reflexivity.
  - exfalso. exact (iter_text_step_never_raises _ _ _ _ _ E).
Qed.

(** X6 on records whose [text] is an integer, a list and a string. *)
Lemma X6_iter_text_never_raises_witness :
  drain (DownloadData.iter_text
           (of_list [[(lit "text", PInt 5)]; [(lit "text", PList [PStr (lit "x")])];
                     [(lit "text", PStr (lit "x"))]]) None) 5 (0, 0%Z, false)
  = Some ([PDict [(lit "text", PStr (lit "x"))]], (3, 1%Z, false), None)
  /\ @None exn = None.
Proof.
  split; [reflexivity|].
  exact (X6_iter_text_never_raises
           (of_list [[(lit "text", PInt 5)]; [(lit "text", PList [PStr (lit "x")])];
                     [(lit "text", PStr (lit "x"))]])
           None 5 (0, 0%Z, false)
           [PDict [(lit "text", PStr (lit "x"))]] (3, 1%Z, false) None eq_refl).
Defined.

(** ** Generators over records that raise *)

Lemma for_each_drain f (ds : source) raw :
  forall pos fuel,
    (forall i, i < length raw -> ds (pos + i) = raw !! i) ->
    Forall (fun ex => exists o, f ex = Ok o) raw ->
    match ds (pos + length raw) with
    | Some bad => exists e, f bad = Raise e
    | None => True
    end ->
    length raw < fuel ->
    drain (for_each f ds) fuel pos
    = Some (normalized f raw,
            match ds (pos + length raw) with
            | Some _ => S (pos + length raw)
            | None => pos + length raw
            end,
            match ds (pos + length raw) with
            | Some bad => match f bad with Raise e => Some e | Ok _ => None end
            | None => None
            end).
Proof.
  induction raw as [|ex raw IH]; intros pos fuel Hpre Hok Hend Hfuel;
    (destruct fuel as [|fuel]; [simpl in Hfuel; lia|]).
  - simpl length in *. rewrite Nat.add_0_r in *. simpl. unfold for_each.
    destruct (ds pos) as [bad|]; [|reflexivity].
    destruct Hend as [e ->]. reflexivity.
  - assert (E : ds pos = Some ex).
    { specialize (Hpre 0). rewrite Nat.add_0_r in Hpre. apply Hpre. simpl. lia. }
    inversion Hok as [|? ? [o Ho] Hok']; subst.
    simpl length in *. rewrite Nat.add_succ_r in *.
    assert (Hpre' : forall i, i < length raw -> ds (S pos + i) = raw !! i).
    { intros i Hi. specialize (Hpre (S i)). rewrite Nat.add_succ_r in Hpre.
      apply Hpre. lia. }
    specialize (IH (S pos) fuel Hpre' Hok' Hend ltac:(lia)).
    simpl drain. unfold for_each at 1. rewrite E, Ho, normalized_cons, Ho.
    destruct o as [r|]; rewrite IH; reflexivity.
Qed.

Lemma for_each_ends_at_raise
    (f : list (str * pyval) -> res (option pyval))
    (pre : list (list (str * pyval))) (bad : list (str * pyval))
    (post : list (list (str * pyval))) (e : exn) (fuel : nat) :
  Forall (fun ex => exists o, f ex = Ok o) pre ->
  f bad = Raise e ->
  length pre < fuel ->
  drain (for_each f (of_list (pre ++ bad :: post))) fuel 0
  = Some (normalized f pre, S (length pre), Some e).
Proof.
  intros Hok Hbad Hfuel.
  pose proof (for_each_drain f (of_list (pre ++ bad :: post)) pre 0 fuel) as H.
  unfold of_list in *. simpl in H.
  rewrite list_lookup_middle in H by reflexivity. rewrite Hbad in H.
  apply H; [|exact Hok|eauto|exact Hfuel].
  intros i Hi. apply lookup_app_l. exact Hi.
Qed.

(** X7: a generator yields the records of the stretch before the first
    record that makes its body raise, then ends with that exception,
    the cursor just after the offending record: nothing after it is
    pulled. *)
Theorem X7_generator_ends_at_first_raising_record
    (f : list (str * pyval) -> res (option pyval))
    (pre : list (list (str * pyval))) (bad : list (str * pyval))
    (post : list (list (str * pyval))) (e : exn) (fuel : nat) :
  Forall (fun ex => exists o, f ex = Ok o) pre ->
  f bad = Raise e ->
  length pre < fuel ->
  drain (for_each f (of_list (pre ++ bad :: post))) fuel 0
  = Some (normalized f pre, S (length pre), Some e).
Proof. apply for_each_ends_at_raise. Qed.

(** X7 for [gen_hi] on a record with a list for [tgt] between two good
    records. *)
Lemma X7_generator_ends_at_first_raising_record_witness :
  drain (gen_hi (of_list [[(lit "tgt", PStr (lit "a"))];
                          [(lit "tgt", PList [PStr (lit "b")])];
                          [(lit "tgt", PStr (lit "c"))]])) 2 0
  = Some ([PDict [(lit "lang", PStr (lit "hi")); (lit "text", PStr (lit "a"))]],
          2, Some AttributeError).
Proof.
  apply (X7_generator_ends_at_first_raising_record gen_hi_body
           [[(lit "tgt", PStr (lit "a"))]] [(lit "tgt", PList [PStr (lit "b")])]
           [[(lit "tgt", PStr (lit "c"))]] AttributeError 2).
  - repeat constructor. eexists. reflexivity.
  - reflexivity.
  - simpl. lia.
Defined.

(** ** The writer and the rest of the file system *)

Lemma parent_length (p : list (list N)) : length (parent p) = length p - 1.
Proof.
  unfold parent. rewrite removelast_firstn_len, length_take. lia.
Qed.

Lemma open_w_keeps (fs fs' : gmap (list (list N)) node) p r q :
  open_w p fs = (fs', r) -> q <> p -> fs' !! q = fs !! q.
Proof.
  unfold open_w. intros H Hq.
  destruct (is_dir fs p); [injection H as <- _; reflexivity|].
  destruct (is_dir fs (parent p)).
  - injection H as <- _. apply lookup_insert_ne. congruence.
  - destruct (fs !! parent p) as [[|txt]|]; injection H as <- _; reflexivity.
Qed.

(** Whatever its outcome, [write_jsonl] changes other paths only by
    making directories that were missing. *)
Lemma write_jsonl_steps (fs fs' : gmap (list (list N)) node) p records r :
  CollectRaw.write_jsonl p records fs = (fs', r)
  \/ DownloadData.write_jsonl p records fs = (fs', r) ->
  exists fs1 r1,
    mkdir_parents (parent p) fs = (fs1, r1)
    /\ forall q, q <> p -> fs' !! q = fs1 !! q.
Proof.
  intros H. destruct (mkdir_parents (parent p) fs) as [fs1 r1] eqn:Hmk.
  exists fs1, r1. split; [reflexivity|]. intros q Hq.
  assert (Hcore : forall k : io unit,
             (forall fa fb rb, k fa = (fb, rb) -> fb !! q = fa !! q) ->
             (mkdir_parents (parent p) ≫= fun _ => open_w p ≫= fun _ => k) fs = (fs', r) ->
             fs' !! q = fs1 !! q).
  { intros k Hk. unfold_io. rewrite Hmk. destruct r1 as [[]|e1].
    - destruct (open_w p fs1) as [fs2 [[]|e2]] eqn:Hop.
      + intros Hrun. rewrite (Hk _ _ _ Hrun). eapply open_w_keeps; eassumption.
      + intros [= <- _]. eapply open_w_keeps; eassumption.
    - intros [= <- _]. reflexivity. }
  destruct H as [H | H].
  - eapply Hcore; [|exact H]. unfold_io. intros fa fb rb.
    destruct (starts_with RAW_DIR p); simpl.
    + intros Hw. 
      exact (writes_keep p records fa fb rb q Hw Hq).
    + intros [= <- _]. reflexivity.
  - eapply Hcore; [|exact H]. intros fa fb rb Hw. 
      exact (writes_keep p records fa fb rb q Hw Hq).
Qed.

(** X8: whether it succeeds or fails, [write_jsonl] never removes or
    changes an entry of the file system other than its target path:
    every other file keeps its text and every directory stays. *)
Theorem X8_write_jsonl_keeps_other_entries
    (fs fs' : gmap (list (list N)) node) (p : list (list N)) (records : list pyval)
    (r : res unit) (q : list (list N)) (v : node) :
  CollectRaw.write_jsonl p records fs = (fs', r)
  \/ DownloadData.write_jsonl p records fs = (fs', r) ->
  q <> p ->
  fs !! q = Some v ->
  fs' !! q = Some v.
Proof.
  intros H Hq Hv. destruct (write_jsonl_steps _ _ _ _ _ H) as (fs1 & r1 & Hmk & Hframe).
  rewrite Hframe by exact Hq. eapply mkdir_from_keeps; eassumption.
Qed.

(** X8 where a file is left from an earlier run and another path is
    written. *)
Lemma X8_write_jsonl_keeps_other_entries_witness :
  (DownloadData.write_jsonl (DownloadData.RAW_DIR ++ [lit "samanantar_hi.jsonl"])
     [PDict [(lit "text", PStr (lit "a"))]] after_a_run).1 !! wiki_hi_path
  = Some (File (lit "old")).
Proof.
  apply (X8_write_jsonl_keeps_other_entries after_a_run _
           (DownloadData.RAW_DIR ++ [lit "samanantar_hi.jsonl"])
           [PDict [(lit "text", PStr (lit "a"))]] (Ok ()) wiki_hi_path).
  - right. reflexivity.
  - discriminate.
  - reflexivity.
Defined.

Lemma mkdir_from_blocked rest :
  forall base (fs : gmap (list (list N)) node),
    (exists i txt, 1 <= i <= length rest
                   /\ fs !! (base ++ firstn i rest) = Some (File txt)) ->
    exists fs' e,
      mkdir_from base rest fs = (fs', Raise e)
      /\ (e = FileExistsError \/ e = NotADirectoryError).
Proof.
  induction rest as [|c rest IH]; intros base fs (i & txt & Hi & Hfile).
  - simpl in Hi. lia.
  - simpl mkdir_from.
    assert (Hshift : forall j, (base ++ [c]) ++ firstn j rest = base ++ firstn (S j) (c :: rest)).
    { intros j. rewrite <- app_assoc. reflexivity. }
    assert (Hnext : fs !! (base ++ [c]) <> Some (File txt) \/ 2 <= i ->
                    forall fs1 : gmap (list (list N)) node,
                      (forall q, q <> base ++ [c] -> fs1 !! q = fs !! q) ->
                      fs !! (base ++ [c]) <> Some (File txt) ->
                      exists j t, 1 <= j <= length rest
                                  /\ fs1 !! ((base ++ [c]) ++ firstn j rest) = Some (File t)).
    { intros _ fs1 Hfs1 Hhere. destruct i as [|[|j]]; [lia| |].
      - exfalso. apply Hhere. exact Hfile.
      - exists (S j), txt. split; [simpl in Hi; lia|].
        rewrite Hfs1; [rewrite Hshift; exact Hfile|].
        intros Heq. apply (f_equal length) in Heq.
        rewrite !length_app, length_take in Heq. cbn [length] in Heq, Hi. lia. }
    destruct (fs !! (base ++ [c])) as [[|t]|] eqn:E.
    + apply IH. apply (Hnext ltac:(left; discriminate) fs); [reflexivity | discriminate].
    + eexists _, _. split; [reflexivity|]. destruct (nonempty rest); auto.
    + apply IH. apply (Hnext ltac:(left; discriminate)); [|discriminate].
      intros q Hq. apply lookup_insert_ne. congruence.
Qed.

(** X9: when a regular file sits at a proper prefix of the target path,
    [write_jsonl] fails in [mkdir] with [FileExistsError] or
    [NotADirectoryError], and the target path is left as it was:
    nothing is opened or emptied. *)
Theorem X9_write_jsonl_fails_on_file_in_the_way
    (fs : gmap (list (list N)) node) (p : list (list N)) (records : list pyval)
    (i : nat) (txt : list N) :
  1 <= i < length p ->
  fs !! firstn i p = Some (File txt) ->
  exists fs' e,
    CollectRaw.write_jsonl p records fs = (fs', Raise e)
    /\ DownloadData.write_jsonl p records fs = (fs', Raise e)
    /\ (e = FileExistsError \/ e = NotADirectoryError)
    /\ fs' !! p = fs !! p.
Proof.
  intros Hi Hfile.
  assert (Hpar : parent p = firstn (length p - 1) p).
  { unfold parent. rewrite removelast_firstn_len. f_equal. lia. }
  destruct (mkdir_from_blocked (parent p) [] fs) as (fs' & e & Hmk & He).
  { exists i, txt. rewrite parent_length. split; [lia|]. simpl.
    rewrite Hpar, take_take. replace (i `min` (length p - 1)) with i by lia. exact Hfile. }
  exists fs', e. unfold CollectRaw.write_jsonl, DownloadData.write_jsonl. unfold_io.
  unfold mkdir_parents. rewrite Hmk. repeat split; [exact He|].
  eapply mkdir_from_above; [exact Hmk|]. rewrite parent_length. simpl. lia.
Qed.

(** X9 where [data/raw] is a regular file. *)
Lemma X9_write_jsonl_fails_on_file_in_the_way_witness :
  exists fs' e,
    CollectRaw.write_jsonl wiki_hi_path [PDict [(lit "text", PStr (lit "a"))]] raw_is_a_file
    = (fs', Raise e)
    /\ DownloadData.write_jsonl wiki_hi_path [PDict [(lit "text", PStr (lit "a"))]]
         raw_is_a_file
       = (fs', Raise e)
    /\ (e = FileExistsError \/ e = NotADirectoryError)
    /\ fs' !! wiki_hi_path = raw_is_a_file !! wiki_hi_path.
Proof.
  apply (X9_write_jsonl_fails_on_file_in_the_way raw_is_a_file
           wiki_hi_path [PDict [(lit "text", PStr (lit "a"))]] 2 (lit "x")).
  - simpl. lia.
  - reflexivity.
Defined.






(** X11: the writer of [01_collect_raw.py] names the file in its
    progress bar relative to [RAW_DIR], after opening it: on a path
    outside [RAW_DIR] it raises [ValueError] with the file already
    emptied and no record written, whatever the file held; on a path
    under [RAW_DIR] it does what the writer of [download_data.py]
    does. *)
Theorem X11_write_jsonl_outside_raw_dir
    (fs : gmap (list (list N)) node) (p : list (list N)) (records : list pyval) :
  p <> [] ->
  (forall i txt, 1 <= i < length p -> fs !! firstn i p <> Some (File txt)) ->
  fs !! p <> Some Dir ->
  (starts_with RAW_DIR p = false ->
   exists fs',
     CollectRaw.write_jsonl p records fs = (fs', Raise ValueError)
     /\ fs' !! p = Some (File []))
  /\ (starts_with RAW_DIR p = true ->
      CollectRaw.write_jsonl p records fs = DownloadData.write_jsonl p records fs).
Proof.
  intros Hne Hfree Hnodir. split.
  - intros Hraw.
    destruct (collect_write_jsonl_run fs p records Hne Hfree Hnodir
                ltac:(intros H; congruence)) as (fs' & H1 & H2 & _).
    rewrite Hraw in H1, H2. eauto.
  - intros Hraw. unfold CollectRaw.write_jsonl, DownloadData.write_jsonl. unfold_io.
    rewrite Hraw. destruct (mkdir_parents (parent p) fs) as [fs1 [[]|e1]]; [|reflexivity].
    destruct (open_w p fs1) as [fs2 [[]|e2]]; reflexivity.
Qed.

(** X11 on [data/raw/wikipedia_hi.jsonl], which is not under
    [../data/raw], with a file left from an earlier run. *)
Lemma X11_write_jsonl_outside_raw_dir_witness :
  exists fs',
    CollectRaw.write_jsonl wiki_hi_path [PDict [(lit "text", PStr (lit "a"))]] after_a_run
    = (fs', Raise ValueError)
    /\ fs' !! wiki_hi_path = Some (File []).
Proof.
  apply (proj1 (X11_write_jsonl_outside_raw_dir after_a_run wiki_hi_path
                  [PDict [(lit "text", PStr (lit "a"))]]
                  ltac:(discriminate) ltac:(free_prefixes) ltac:(vm_compute; discriminate))).
  reflexivity.
Defined.

(** ** The collectors, end to end *)

Lemma of_list_end (raw : list (list (str * pyval))) : of_list raw (0 + length raw) = None.
Proof. unfold of_list. apply lookup_ge_None. simpl. lia. Qed.

(** [take] over a generator on a finite source, for every limit. *)
Lemma take_gen_finite f raw (limit : option Z) fuel :
  Forall (fun ex => exists o, f ex = Ok o) raw ->
  length raw < fuel ->
  exists st,
    drain (take (for_each f (of_list raw)) limit) fuel (0, 0%Z, false)
    = Some (limited limit (normalized f raw), st, None).
Proof.
  intros Hok Hfuel.
  assert (Hpre : forall i, i < length raw -> of_list raw (0 + i) = raw !! i)
    by (intros i _; reflexivity).
  destruct limit as [l|].
  - assert (Hrun : forall l', (1 <= l')%Z ->
               exists st,
                 drain (take (for_each f (of_list raw)) (Some l')) fuel (0, 0%Z, false)
                 = Some (firstn (Z.to_nat l') (normalized f raw), st, None)).
    { intros l' Hl'.
      destruct (bounded_drain f (of_list raw) true l' raw (Some (Z.to_nat l')) 0 0%Z fuel
                  Hpre Hok) as [nf Hnf].
      - simpl. repeat split; lia.
      - right. apply of_list_end.
      - exact Hfuel.
      - eexists. erewrite drain_ext; [exact Hnf | intros st; apply take_bounded]. }
    unfold limited. destruct (Z.le_gt_cases l 1) as [Hl | Hl].
    + rewrite take_small_limit_from by lia.
      replace (Z.max 1 l) with 1%Z by lia. apply Hrun. lia.
    + replace (Z.max 1 l) with l by lia. apply Hrun. lia.
  - destruct (take_unlimited_drain f (of_list raw) raw 0 0%Z false fuel Hpre Hok
                (of_list_end raw) Hfuel) as [b Hb].
    eexists. exact Hb.
Qed.

(** [iter_text] on a finite source, for every limit. *)
Lemma iter_text_finite raw (limit : option Z) fuel :
  length raw < fuel ->
  exists st,
    drain (DownloadData.iter_text (of_list raw) limit) fuel (0, 0%Z, false)
    = Some (iter_limited limit (normalized DownloadData.iter_text_body raw), st, None).
Proof.
  intros Hfuel.
  assert (Hpre : forall i, i < length raw -> of_list raw (0 + i) = raw !! i)
    by (intros i _; reflexivity).
  assert (Hok : Forall (fun ex => exists o, DownloadData.iter_text_body ex = Ok o) raw).
  { apply Forall_forall. intros ex _. apply iter_text_body_ok. }
  assert (Hall : forall limit', limit' = None \/ limit' = Some 0%Z ->
             exists st,
               drain (DownloadData.iter_text (of_list raw) limit') fuel (0, 0%Z, false)
               = Some (normalized DownloadData.iter_text_body raw, st, None)).
  { intros limit' Hlimit.
    destruct (bounded_drain DownloadData.iter_text_body (of_list raw) false 0%Z raw None
                0 0%Z fuel Hpre Hok eq_refl (or_intror (of_list_end raw)) Hfuel) as [nf Hnf].
    eexists. erewrite drain_ext; [exact Hnf|]. intros st.
    rewrite iter_text_bounded. destruct Hlimit as [-> | ->]; reflexivity. }
  assert (Hrun : forall l', (1 <= l')%Z ->
             exists st,
               drain (DownloadData.iter_text (of_list raw) (Some l')) fuel (0, 0%Z, false)
               = Some (firstn (Z.to_nat l') (normalized DownloadData.iter_text_body raw),
                       st, None)).
  { intros l' Hl'.
    destruct (bounded_drain DownloadData.iter_text_body (of_list raw) true l' raw
                (Some (Z.to_nat l')) 0 0%Z fuel Hpre Hok) as [nf Hnf].
    - simpl. repeat split; lia.
    - right. apply of_list_end.
    - exact Hfuel.
    - eexists. erewrite drain_ext; [exact Hnf|]. intros st. rewrite iter_text_bounded.
      destruct st as [[s n] b]. simpl. replace (l' =? 0)%Z with false by lia. reflexivity. }
  destruct limit as [l|]; [|apply Hall; auto].
  unfold iter_limited. destruct (Z.eqb_spec l 0) as [-> | Hl0]; [apply Hall; auto|].
  destruct (Z.lt_ge_cases l 0) as [Hl | Hl].
  - rewrite iter_text_negative_from by lia.
    replace (Z.max 1 l) with 1%Z by lia. apply Hrun. lia.
  - replace (Z.max 1 l) with l by lia. apply Hrun. lia.
Qed.

Lemma write_generated_run {T} (wj : list (list N) -> list pyval -> io unit)
    (outpath : list (list N)) (nx : T -> gstep pyval T) (s0 : T) (fuel : nat)
    (out : list pyval) (st : T) (e : option exn)
    (fs fs' : gmap (list (list N)) node) :
  drain nx fuel s0 = Some (out, st, e) ->
  wj outpath out fs = (fs', Ok ()) ->
  exists run,
    write_generated wj outpath nx s0 fuel = Some run
    /\ run fs = (fs', match e with Some x => Raise x | None => Ok () end).
Proof.
  intros D W. unfold write_generated. rewrite D. eexists. split; [reflexivity|].
  unfold_io. rewrite W. destruct e; reflexivity.
Qed.

(** A collector of [01_collect_raw.py] on a finite dataset. *)
Lemma collect_run (f : list (str * pyval) -> res (option pyval)) (outpath : list (list N))
    (raw : list (list (str * pyval))) (limit : option Z) (fuel : nat)
    (fs : gmap (list (list N)) node) :
  Forall (fun ex => exists o, f ex = Ok o) raw ->
  length raw < fuel ->
  outpath <> [] ->
  starts_with RAW_DIR outpath = true ->
  (forall i txt, 1 <= i < length outpath -> fs !! firstn i outpath <> Some (File txt)) ->
  fs !! outpath <> Some Dir ->
  Forall (fun rec => writable rec = true) (limited limit (normalized f raw)) ->
  exists run fs',
    write_generated CollectRaw.write_jsonl outpath
      (take (for_each f (of_list raw)) limit) (0, 0%Z, false) fuel = Some run
    /\ run fs = (fs', Ok ())
    /\ fs' !! outpath = Some (File (jsonl_text (limited limit (normalized f raw))))
    /\ (forall i, 1 <= i < length outpath -> fs' !! firstn i outpath = Some Dir)
    /\ (forall q, q <> outpath -> length outpath <= length q -> fs' !! q = fs !! q).
Proof.
  intros Hok Hfuel Hne Hraw Hfree Hnodir Hw.
  destruct (take_gen_finite f raw limit fuel Hok Hfuel) as [st D].
  destruct (collect_write_jsonl_run fs outpath (limited limit (normalized f raw))
              Hne Hfree Hnodir (fun _ => Hw)) as (fs' & W & Hfile & Hdirs).
  rewrite Hraw in W, Hfile.
  destruct (write_generated_run CollectRaw.write_jsonl outpath _ _ _ _ _ _ fs fs' D W)
    as (run & Hrun & Hres).
  exists run, fs'. repeat split; try assumption.
  intros q Hq Hlen.
  destruct (write_jsonl_steps fs fs' outpath _ (Ok ()) (or_introl W))
    as (fs1 & r1 & Hmk & Hframe).
  rewrite Hframe by exact Hq. eapply mkdir_from_above; [exact Hmk|].
  rewrite parent_length. destruct outpath; [congruence|]. simpl in *. lia.
Qed.

(** X12: [collect_wikipedia] on a finite dataset whose records do not
    make the generator raise, and whose normalised records to write can
    be written ([json.dumps] prints them and their text can be encoded
    in UTF-8), leaves at [../data/raw/wikipedia/hi_mono.jsonl] one line
    for each normalised record in order: all of them with no limit, the
    first [max(1, limit)] with a limit. *)
Theorem X12_collect_wikipedia_end_to_end
    (fs : gmap (list (list N)) node) (raw : list (list (str * pyval)))
    (limit : option Z) (fuel : nat) :
  Forall (fun ex => exists o, collect_wikipedia.gen_body ex = Ok o) raw ->
  Forall (fun rec => writable rec = true)
    (limited limit (normalized collect_wikipedia.gen_body raw)) ->
  length raw < fuel ->
  (forall i txt, 1 <= i < length wiki_path -> fs !! firstn i wiki_path <> Some (File txt)) ->
  fs !! wiki_path <> Some Dir ->
  exists run fs',
    CollectRawRun.collect_wikipedia (of_list raw) limit fuel = Some run
    /\ run fs = (fs', Ok ())
    /\ fs' !! wiki_path
       = Some (File (jsonl_text (limited limit (normalized collect_wikipedia.gen_body raw)))).
Proof.
  intros Hok Hw Hfuel Hfree Hnodir.
  destruct (collect_run collect_wikipedia.gen_body wiki_path raw limit fuel fs Hok Hfuel
              ltac:(discriminate) eq_refl Hfree Hnodir Hw) as (run & fs' & H1 & H2 & H3 & _).
  exists run, fs'. auto.
Qed.

(** X12 with the limit 1 on two articles, in an empty file system. *)
Lemma X12_collect_wikipedia_end_to_end_witness :
  exists run fs',
    CollectRawRun.collect_wikipedia
      (of_list [[(lit "text", PStr (lit " a ")); (lit "title", PStr (lit "T"))];
                [(lit "text", PStr (lit "b"))]]) (Some 1%Z) 3 = Some run
    /\ run ∅ = (fs', Ok ())
    /\ fs' !! wiki_path
       = Some (File (json_dumps (PDict [(lit "lang", PStr (lit "hi"));
                                        (lit "text", PStr (lit "a"));
                                        (lit "title", PStr (lit "T"));
                                        (lit "url", PStr [])]) ++ [10%N])).
Proof.
  apply (X12_collect_wikipedia_end_to_end ∅
           [[(lit "text", PStr (lit " a ")); (lit "title", PStr (lit "T"))];
            [(lit "text", PStr (lit "b"))]] (Some 1%Z) 3).
  - repeat constructor; eexists; reflexivity.
  - repeat constructor.
  - simpl. lia.
  - free_prefixes.
  - vm_compute. discriminate.
Defined.

(** X13: [collect_wikilingua] writes nothing when no candidate loads:
    it raises before any directory is made or file opened, and the file
    system is as it was. When a candidate loads a finite dataset, no
    record makes the generator raise, and when the normalised records
    to write can be written, the file holds one line for each of them,
    limited as by [take]. *)
Theorem X13_collect_wikilingua_end_to_end
    (load_dataset : list N -> list N -> collect_wikilingua.loaded source)
    (fs : gmap (list (list N)) node) (raw : list (list (list N * pyval)))
    (limit : option Z) (fuel : nat) :
  (Forall (load_fails load_dataset) collect_wikilingua.candidates ->
   exists run msg,
     CollectRawRun.collect_wikilingua load_dataset limit fuel = Some run
     /\ run fs = (fs, Raise (RuntimeError msg)))
  /\ (collect_wikilingua.resolve load_dataset = Ok (of_list raw) ->
      Forall (fun rec => writable rec = true)
        (limited limit (normalized collect_wikilingua.gen_body raw)) ->
      length raw < fuel ->
      (forall i txt, 1 <= i < length lingua_path ->
                     fs !! firstn i lingua_path <> Some (File txt)) ->
      fs !! lingua_path <> Some Dir ->
      exists run fs',
        CollectRawRun.collect_wikilingua load_dataset limit fuel = Some run
        /\ run fs = (fs', Ok ())
        /\ fs' !! lingua_path
           = Some (File (jsonl_text
                           (limited limit (normalized collect_wikilingua.gen_body raw))))).
Proof.
  split.
  - intros Hfail. apply (try_candidates_exhausted load_dataset _ []) in Hfail.
    unfold CollectRawRun.collect_wikilingua, collect_wikilingua.resolve.
    destruct (collect_wikilingua.try_candidates load_dataset collect_wikilingua.candidates [])
      as [[ds|] tried]; [discriminate|].
    eexists _, _. split; reflexivity.
  - intros Hres Hw Hfuel Hfree Hnodir. unfold CollectRawRun.collect_wikilingua. rewrite Hres.
    destruct (collect_run collect_wikilingua.gen_body lingua_path raw limit fuel fs)
      as (run & fs' & H1 & H2 & H3 & _); try assumption; try reflexivity; try discriminate.
    + apply Forall_forall. intros ex _. eexists. reflexivity.
    + exists run, fs'. auto.
Qed.

(** X13 on a provider where nothing loads, and on one whose second
    candidate loads one article. *)
Lemma X13_collect_wikilingua_end_to_end_witness :
  (exists run msg,
      CollectRawRun.collect_wikilingua
        (fun b c => collect_wikilingua.LoadFailed (b ++ lit "?")) None 1 = Some run
      /\ run after_a_run = (after_a_run, Raise (RuntimeError msg)))
  /\ (exists run fs',
         CollectRawRun.collect_wikilingua one_article None 2 = Some run
         /\ run ∅ = (fs', Ok ())
         /\ fs' !! lingua_path
            = Some (File (json_dumps (PDict [(lit "lang", PStr (lit "hi"));
                                             (lit "article", PStr (lit "A B"));
                                             (lit "summary", PStr (lit "S"));
                                             (lit "url", PStr [])]) ++ [10%N]))).
Proof.
  split.
  - apply (proj1 (X13_collect_wikilingua_end_to_end
                    (fun b c => collect_wikilingua.LoadFailed (b ++ lit "?"))
                    after_a_run [] None 1)).
    repeat constructor; eexists; reflexivity.
  - apply (proj2 (X13_collect_wikilingua_end_to_end one_article ∅
                    [[(lit "article", PList [PStr (lit "A"); PStr (lit "B")]);
                      (lit "highlights", PStr (lit "S"))]] None 2)).
    + reflexivity.
    + repeat constructor.
    + simpl. lia.
    + free_prefixes.
    + vm_compute. discriminate.
Defined.

(** X14: when a record makes the generator raise, [collect_wikipedia]
    with no limit ends with that exception and leaves a partial file:
    the lines of the normalised records before the offending one,
    those being records that can be written, and nothing after. *)
Theorem X14_collect_wikipedia_leaves_partial_file
    (fs : gmap (list (list N)) node)
    (pre : list (list (list N * pyval))) (bad : list (list N * pyval))
    (post : list (list (list N * pyval))) (e : exn) (fuel : nat) :
  Forall (fun ex => exists o, collect_wikipedia.gen_body ex = Ok o) pre ->
  Forall (fun rec => writable rec = true) (normalized collect_wikipedia.gen_body pre) ->
  collect_wikipedia.gen_body bad = Raise e ->
  length pre < fuel ->
  (forall i txt, 1 <= i < length wiki_path -> fs !! firstn i wiki_path <> Some (File txt)) ->
  fs !! wiki_path <> Some Dir ->
  exists run fs',
    CollectRawRun.collect_wikipedia (of_list (pre ++ bad :: post)) None fuel = Some run
    /\ run fs = (fs', Raise e)
    /\ fs' !! wiki_path
       = Some (File (jsonl_text (normalized collect_wikipedia.gen_body pre))).
Proof.
  intros Hok Hw Hbad Hfuel Hfree Hnodir.
  pose proof (for_each_ends_at_raise collect_wikipedia.gen_body pre bad post e fuel
                Hok Hbad Hfuel) as D.
  destruct (collect_write_jsonl_run fs wiki_path
              (normalized collect_wikipedia.gen_body pre)
              ltac:(discriminate) Hfree Hnodir (fun _ => Hw)) as (fs' & W & Hfile & _).
  change (starts_with RAW_DIR wiki_path) with true in W, Hfile.
  destruct (write_generated_run CollectRaw.write_jsonl wiki_path
              (take (collect_wikipedia.gen (of_list (pre ++ bad :: post))) None)
              (0, 0%Z, false) fuel (normalized collect_wikipedia.gen_body pre)
              (S (length pre), 0%Z, false) (Some e) fs fs') as (run & Hrun & Hres).
  - rewrite drain_take_unlimited. unfold collect_wikipedia.gen. rewrite D. reflexivity.
  - exact W.
  - exists run, fs'. auto.
Qed.

(** X14 on an article whose [text] is a list, after a good one. *)
Lemma X14_collect_wikipedia_leaves_partial_file_witness :
  exists run fs',
    CollectRawRun.collect_wikipedia
      (of_list ([[(lit "text", PStr (lit "a"))]]
                  ++ [(lit "text", PList [PStr (lit "b")])] :: [])) None 2 = Some run
    /\ run ∅ = (fs', Raise AttributeError)
    /\ fs' !! wiki_path
       = Some (File (jsonl_text
                       (normalized collect_wikipedia.gen_body [[(lit "text", PStr (lit "a"))]]))).
Proof.
  apply (X14_collect_wikipedia_leaves_partial_file ∅ [[(lit "text", PStr (lit "a"))]]
           [(lit "text", PList [PStr (lit "b")])] [] AttributeError 2).
  - repeat constructor; eexists; reflexivity.
  - repeat constructor.
  - reflexivity.
  - simpl. lia.
  - free_prefixes.
  - vm_compute. discriminate.
Defined.

Lemma parallel_ok_hi_ok ex :
  (exists o, gen_parallel_body ex = Ok o) -> exists o, gen_hi_body ex = Ok o.
Proof.
  unfold gen_parallel_body, gen_hi_body. intros [o H].
  destruct (get_stripped ex (lit "src")) as [a|]; unfold_res; [|discriminate].
  destruct (get_stripped ex (lit "tgt")) as [b|]; [|discriminate]. eauto.
Qed.

(** X15: [collect_samanantar], given by its two loads the same finite
    dataset, of which no record makes [gen_parallel] raise and of which
    the normalised records to write can be written, leaves two files in
    [../data/raw/samanantar]: the parallel records in
    [en_hi_parallel.jsonl] and the Hindi sides in [hi_mono.jsonl], each
    limited on its own count; writing the second file leaves the first
    one as written. *)
Theorem X15_collect_samanantar_writes_two_files
    (fs : gmap (list (list N)) node) (raw : list (list (list N * pyval)))
    (limit : option Z) (fuel : nat) :
  Forall (fun ex => exists o, gen_parallel_body ex = Ok o) raw ->
  Forall (fun rec => writable rec = true) (limited limit (normalized gen_parallel_body raw)) ->
  Forall (fun rec => writable rec = true) (limited limit (normalized gen_hi_body raw)) ->
  length raw < fuel ->
  (forall i txt, 1 <= i < length CollectRawRun.out_parallel ->
                 fs !! firstn i CollectRawRun.out_parallel <> Some (File txt)) ->
  fs !! CollectRawRun.out_parallel <> Some Dir ->
  fs !! CollectRawRun.out_hi <> Some Dir ->
  exists run fs',
    CollectRawRun.collect_samanantar (of_list raw) (of_list raw) limit fuel = Some run
    /\ run fs = (fs', Ok ())
    /\ fs' !! CollectRawRun.out_parallel
       = Some (File (jsonl_text (limited limit (normalized gen_parallel_body raw))))
    /\ fs' !! CollectRawRun.out_hi
       = Some (File (jsonl_text (limited limit (normalized gen_hi_body raw)))).
Proof.
  intros Hok Hw Hw_hi Hfuel Hfree Hnodir Hnodir_hi.
  assert (Hok_hi : Forall (fun ex => exists o, gen_hi_body ex = Ok o) raw).
  { eapply Forall_impl; [exact Hok|]. exact parallel_ok_hi_ok. }
  destruct (collect_run gen_parallel_body CollectRawRun.out_parallel raw limit fuel fs
              Hok Hfuel ltac:(discriminate) eq_refl Hfree Hnodir Hw)
    as (run1 & fs1 & H1 & Hr1 & Hf1 & Hd1 & Hframe1).
  destruct (collect_run gen_hi_body CollectRawRun.out_hi raw limit fuel fs1
              Hok_hi Hfuel ltac:(discriminate) eq_refl)
    as (run2 & fs2 & H2 & Hr2 & Hf2 & _ & Hframe2).
  { intros i txt Hi.
    replace (firstn i CollectRawRun.out_hi) with (firstn i CollectRawRun.out_parallel).
    - rewrite Hd1 by exact Hi. discriminate.
    - do 5 (destruct i as [|i]; [reflexivity|]). simpl in Hi. lia. }
  { rewrite Hframe1; [exact Hnodir_hi | discriminate | reflexivity]. }
  { exact Hw_hi. }
  exists (run1 ≫= fun _ => run2), fs2.
  unfold CollectRawRun.collect_samanantar, gen_parallel, gen_hi. rewrite H1, H2.
  split; [reflexivity|]. split; [unfold_io; rewrite Hr1; exact Hr2|].
  split; [|exact Hf2]. rewrite Hframe2; [exact Hf1 | discriminate | reflexivity].
Qed.

(** X15 on two pairs, one with an empty English side, in an empty file
    system. *)
Lemma X15_collect_samanantar_writes_two_files_witness :
  let raw := [[(lit "src", PStr (lit "a")); (lit "tgt", PStr (lit "b"))];
              [(lit "src", PStr []); (lit "tgt", PStr (lit "c"))]] in
  exists run fs',
    CollectRawRun.collect_samanantar (of_list raw) (of_list raw) None 3 = Some run
    /\ run ∅ = (fs', Ok ())
    /\ fs' !! CollectRawRun.out_parallel
       = Some (File (jsonl_text (limited None (normalized gen_parallel_body raw))))
    /\ fs' !! CollectRawRun.out_hi
       = Some (File (jsonl_text (limited None (normalized gen_hi_body raw)))).
Proof.
  apply (X15_collect_samanantar_writes_two_files ∅
           [[(lit "src", PStr (lit "a")); (lit "tgt", PStr (lit "b"))];
            [(lit "src", PStr []); (lit "tgt", PStr (lit "c"))]] None 3).
  - repeat constructor; eexists; reflexivity.
  - repeat constructor.
  - repeat constructor.
  - simpl. lia.
  - free_prefixes.
  - vm_compute. discriminate.
  - vm_compute. discriminate.
Defined.

Lemma parallel_record_has_hi ex p :
  gen_parallel_body ex = Ok (Some p) ->
  exists h, gen_hi_body ex = Ok (Some h) /\ text_of h = tgt_of p.
Proof.
  unfold gen_parallel_body, gen_hi_body.
  destruct (get_stripped ex (lit "src")) as [a|]; unfold_res; [|discriminate].
  destruct (get_stripped ex (lit "tgt")) as [b|]; [|discriminate].
  destruct (nonempty a); [|discriminate]. destruct (nonempty b); [|discriminate].
  simpl. intros [= <-]. eexists. split; reflexivity.
Qed.

(** X16: for every raw record from which [gen_parallel] emits a pair,
    [gen_hi] emits a record whose text is the pair's [tgt]; so over any
    dataset the [tgt] column of the parallel records is a subsequence
    of the [text] column of the Hindi records. *)
Theorem X16_parallel_targets_are_among_hindi_texts (raw : list (list (list N * pyval))) :
  (forall ex p, In ex raw -> gen_parallel_body ex = Ok (Some p) ->
                exists h, gen_hi_body ex = Ok (Some h) /\ text_of h = tgt_of p)
  /\ map tgt_of (normalized gen_parallel_body raw)
       `sublist_of` map text_of (normalized gen_hi_body raw).
Proof.
  split; [intros ex p _; apply parallel_record_has_hi|].
  induction raw as [|ex raw IH]; [constructor|].
  rewrite !normalized_cons.
  destruct (gen_parallel_body ex) as [[p|]|e] eqn:E.
  - destruct (parallel_record_has_hi ex p E) as (h & -> & Hh).
    simpl. rewrite Hh. apply sublist_skip, IH.
  - destruct (gen_hi_body ex) as [[h|]|e']; simpl; [apply sublist_cons|..]; exact IH.
  - destruct (gen_hi_body ex) as [[h|]|e']; simpl; [apply sublist_cons|..]; exact IH.
Qed.

(** X16 on a pair and a record with an empty English side. *)
Lemma X16_parallel_targets_are_among_hindi_texts_witness :
  exists h,
    gen_hi_body [(lit "src", PStr (lit "a")); (lit "tgt", PStr (lit " b "))] = Ok (Some h)
    /\ text_of h
       = tgt_of (PDict [(lit "src_lang", PStr (lit "en")); (lit "tgt_lang", PStr (lit "hi"));
                        (lit "src", PStr (lit "a")); (lit "tgt", PStr (lit "b"))]).
Proof.
  apply (proj1 (X16_parallel_targets_are_among_hindi_texts
                  [[(lit "src", PStr (lit "a")); (lit "tgt", PStr (lit " b "))];
                   [(lit "src", PStr []); (lit "tgt", PStr (lit "c"))]])
           [(lit "src", PStr (lit "a")); (lit "tgt", PStr (lit " b "))]).
  - left. reflexivity.
  - reflexivity.
Defined.

(** ** The declared total of [download_data.py] *)

Lemma normalized_length f raw : length (normalized f raw) <= length raw.
Proof.
  induction raw as [|ex raw IH]; [reflexivity|].
  rewrite normalized_cons. destruct (f ex) as [[r|]|e]; simpl; lia.
Qed.

(** X17: without streaming, the total that the collectors of
    [download_data.py] declare to the progress bar is never below the
    number of records [iter_text] yields, when the limit is unset or
    not negative: it counts the raw records, of which some are
    dropped. *)
Theorem X17_declared_total_bounds_the_records
    (raw : list (list (list N * pyval))) (limit : option Z) (fuel : nat) :
  length raw < fuel ->
  match limit with Some l => (0 <= l)%Z | None => True end ->
  exists out st total,
    drain (DownloadData.iter_text (of_list raw) limit) fuel (0, 0%Z, false)
    = Some (out, st, None)
    /\ DownloadDataRun.declared_total false (Z.of_nat (length raw)) limit = Some total
    /\ (Z.of_nat (length out) <= total)%Z.
Proof.
  intros Hfuel Hlimit. destruct (iter_text_finite raw limit fuel Hfuel) as [st D].
  pose proof (normalized_length DownloadData.iter_text_body raw) as Hlen.
  eexists _, st, _. split; [exact D|]. split; [reflexivity|].
  destruct limit as [l|]; simpl; [|lia].
  destruct (Z.eqb_spec l 0) as [-> | Hl0]; simpl; [lia|].
  rewrite length_take. lia.
Qed.

(** X17 with the limit 5 on three records of which one has no text. *)
Lemma X17_declared_total_bounds_the_records_witness :
  exists out st total,
    drain (DownloadData.iter_text
             (of_list [[(lit "text", PStr (lit "a"))]; []; [(lit "tgt", PStr (lit "b"))]])
             (Some 5%Z)) 4 (0, 0%Z, false)
    = Some (out, st, None)
    /\ DownloadDataRun.declared_total false (Z.of_nat 3) (Some 5%Z) = Some total
    /\ (Z.of_nat (length out) <= total)%Z.
Proof.
  apply (X17_declared_total_bounds_the_records
           [[(lit "text", PStr (lit "a"))]; []; [(lit "tgt", PStr (lit "b"))]]
           (Some 5%Z) 4).
  - simpl. lia.
  - lia.
Defined.

(** ** [main] *)

Lemma mem_elem_of name sources : CollectRawRun.mem name sources = true <-> name ∈ sources.
Proof.
  unfold CollectRawRun.mem. rewrite existsb_exists, list_elem_of_In. split.
  - intros (x & Hx & E). apply str_eqb_eq in E. subst. exact Hx.
  - intros Hx. exists name. split; [exact Hx | apply str_eqb_refl].
Qed.

Lemma mem_same_names name (sources1 sources2 : list (list N)) :
  (forall x, x ∈ sources1 <-> x ∈ sources2) ->
  CollectRawRun.mem name sources1 = CollectRawRun.mem name sources2.
Proof.
  intros H. destruct (CollectRawRun.mem name sources2) eqn:E.
  - apply mem_elem_of, H, mem_elem_of, E.
  - destruct (CollectRawRun.mem name sources1) eqn:E1; [|reflexivity].
    apply mem_elem_of, H, mem_elem_of in E1. congruence.
Qed.

(** X18: [main] runs the collectors in the fixed order samanantar,
    wikipedia, wikilingua, indicllm: the order in which [--sources]
    names them, and a name given twice, change nothing. *)
Theorem X18_main_ignores_the_order_of_sources
    (sources1 sources2 : list (list N)) (collect : CollectRawRun.collector -> io unit) :
  (forall name, name ∈ sources1 <-> name ∈ sources2) ->
  CollectRawRun.main sources1 collect = CollectRawRun.main sources2 collect.
Proof.
  intros H. unfold CollectRawRun.main.
  rewrite !(mem_same_names _ sources1 sources2 H). reflexivity.
Qed.

(** X18 on [wikipedia samanantar wikipedia] and [samanantar wikipedia],
    each collector writing an empty file of its own. *)
Lemma X18_main_ignores_the_order_of_sources_witness :
  CollectRawRun.main [lit "wikipedia"; lit "samanantar"; lit "wikipedia"] touch_output
  = CollectRawRun.main [lit "samanantar"; lit "wikipedia"] touch_output.
Proof.
  apply X18_main_ignores_the_order_of_sources.
  intros name. rewrite !elem_of_cons. rewrite !elem_of_nil. tauto.
Defined.

(** ** More on the extractors *)

Lemma join_app {A} (sep : list A) (p1 p2 : list (list A)) :
  p1 <> [] -> p2 <> [] -> join sep (p1 ++ p2) = join sep p1 ++ sep ++ join sep p2.
Proof.
  intros H1 H2. induction p1 as [|x p1 IH]; [congruence|].
  destruct p1 as [|y p1].
  - simpl. destruct p2; [congruence | reflexivity].
  - change (join sep ((x :: y :: p1) ++ p2)) with (x ++ sep ++ join sep ((y :: p1) ++ p2)).
    rewrite IH by discriminate. simpl. rewrite <- !app_assoc. reflexivity.
Qed.

(** X19: [_to_str] of a sequence made of two pieces is made of the
    results for the pieces: joined by one space when both give a
    string, the one that gives a string otherwise; and a tuple is
    treated as the list of its elements. *)
Theorem X19_to_str_of_a_concatenation (l1 l2 : list pyval) :
  _to_str (PList (l1 ++ l2))
  = match _to_str (PList l1), _to_str (PList l2) with
    | Some a, Some b => Some (a ++ lit " " ++ b)
    | Some a, None => Some a
    | None, Some b => Some b
    | None, None => None
    end
  /\ _to_str (PTuple l1) = _to_str (PList l1).
Proof.
  split; [|reflexivity]. rewrite !to_str_list. unfold str_parts at 1 2.
  rewrite omap_app. fold (str_parts l1) (str_parts l2).
  destruct (str_parts l1) as [|x p1] eqn:E1; destruct (str_parts l2) as [|y p2] eqn:E2;
    simpl nonempty; cbv iota.
  - reflexivity.
  - reflexivity.
  - rewrite app_nil_r. reflexivity.
  - change (nonempty ((x :: p1) ++ y :: p2)) with true. cbv iota.
    rewrite join_app by discriminate. reflexivity.
Qed.

(** X20: on a record from which the indicllm generator of
    [01_collect_raw.py] emits a text, [iter_text] of [download_data.py]
    yields the same text, unless the record's [text] is the empty
    string, which [download_data.py] takes as the text. *)
Theorem X20_scripts_agree_on_the_text (ex : list (list N * pyval)) (r : pyval) :
  collect_indicllm.gen_body ex = Ok (Some r) ->
  dict_lookup ex (lit "text") <> Some (PStr []) ->
  DownloadData.iter_text_body ex = Ok (Some (PDict [(lit "text", text_of r)])).
Proof.
  unfold collect_indicllm.gen_body, py_or at 1. intros H Hne.
  assert (Hfin : forall s a,
             DownloadData.normalize_text (PDict ex) = Some (str_strip s) ->
             a = str_strip s -> nonempty a = true ->
             DownloadData.iter_text_body ex
             = Ok (Some (PDict [(lit "text", PStr a)]))).
  { intros s a E -> N. unfold DownloadData.iter_text_body. rewrite E. unfold_res.
    simpl. rewrite N. reflexivity. }
  destruct (truthy (dict_get ex (lit "text"))) eqn:T.
  - unfold dict_get in *.
    destruct (dict_lookup ex (lit "text")) as [[ | | |s| | | ]|] eqn:L;
      simpl in H; try discriminate. unfold_res.
    destruct (nonempty (str_strip s)) eqn:N; [|discriminate]. injection H as <-.
    apply (Hfin s); [|reflexivity|exact N].
    simpl. unfold DownloadData.str_field. rewrite L. reflexivity.
  - change (call_strip (py_or (dict_get ex (lit "content")) (PStr [])))
      with (get_stripped ex (lit "content")) in H.
    destruct (get_stripped ex (lit "content")) as [a|e] eqn:G; unfold_res; [|discriminate].
    destruct (nonempty a) eqn:N; [|discriminate]. injection H as <-.
    destruct (get_stripped_nonempty _ _ _ G) as (c & Lc & ->); [apply nonempty_true, N|].
    apply (Hfin c); [|reflexivity|exact N].
    simpl. unfold DownloadData.str_field. rewrite Lc. unfold dict_get in T.
    destruct (dict_lookup ex (lit "text")) as [[ | | |s| | | ]|]; try reflexivity.
    destruct s; [congruence | discriminate T].
Qed.

(** X20 on a record with no [text] and a [content]. *)
Lemma X20_scripts_agree_on_the_text_witness :
  DownloadData.iter_text_body [(lit "content", PStr (lit " k "))]
  = Ok (Some (PDict [(lit "text", PStr (lit "k"))])).
Proof.
  exact (X20_scripts_agree_on_the_text [(lit "content", PStr (lit " k "))]
           (PDict [(lit "lang", PStr (lit "hi_like")); (lit "text", PStr (lit "k"));
                   (lit "note", PStr (lit "unfiltered_mixed_hindi_family"))])
           eq_refl ltac:(discriminate)).
Defined.

(** X21: a record whose [text] is a string of white space only is
    dropped by the indicllm generator and by [iter_text] alike, whatever
    its [content] holds: a true [text] is the one field stripped, and
    [content] is not looked at. *)
Theorem X21_blank_text_hides_the_content (ex : list (list N * pyval)) (s : list N) :
  dict_lookup ex (lit "text") = Some (PStr s) ->
  s <> [] ->
  str_strip s = [] ->
  collect_indicllm.gen_body ex = Ok None
  /\ DownloadData.iter_text_body ex = Ok None.
Proof.
  intros L Hs Hblank. split.
  - unfold collect_indicllm.gen_body, py_or at 1, dict_get. rewrite L.
    assert (N : nonempty s = true) by (apply nonempty_true; exact Hs).
    change (truthy (default PNone (Some (PStr s)))) with (nonempty s). rewrite N.
    change (call_strip (default PNone (Some (PStr s)))) with (Ok (str_strip s)).
    unfold_res. rewrite Hblank. reflexivity.
  - unfold DownloadData.iter_text_body. simpl. unfold DownloadData.str_field. rewrite L.
    unfold_res. simpl. rewrite Hblank. reflexivity.
Qed.

(** X21 on a record with a blank [text] and a good [content]. *)
Lemma X21_blank_text_hides_the_content_witness :
  collect_indicllm.gen_body [(lit "text", PStr (lit "  ")); (lit "content", PStr (lit "k"))]
  = Ok None
  /\ DownloadData.iter_text_body
       [(lit "text", PStr (lit "  ")); (lit "content", PStr (lit "k"))]
     = Ok None.
Proof.
  apply (X21_blank_text_hides_the_content
           [(lit "text", PStr (lit "  ")); (lit "content", PStr (lit "k"))] (lit "  "));
    [reflexivity | discriminate | reflexivity].
Defined.

(** ** Records that cannot be encoded *)


